(** * apps/train_net.py: the training script of NASA.PyTorch

    A shallow embedding of the script: the command-line slicing and the
    configuration built at import time, the held-out evaluation helper
    [test], and the epoch / iteration loop of [train].

    Conventions.
    - Python integers are [Z]; [%] is floor modulo and raises on a zero
      divisor.
    - Tensor elements are IEEE binary32 values ([spec_float] with
      [prec = 24], [emax = 128]); a Python float is binary64.  A tensor is
      the list of its elements together with the autograd node that
      produced it.
    - Everything the script does to the outside world (logger, tensorboard
      writer, checkpoint files, optimizer, scheduler) is recorded as an
      [event]; a computation returns the events it emitted, the state it
      leaves and either a value or the exception it raised.
    - Wall-clock values ([time.time()]) are left out of the log messages. *)

From Stdlib Require Import ZArith List String Lia Permutation.
From Stdlib Require Import Floats.SpecFloat.
From stdpp Require Import base list strings gmap.

Local Open Scope Z_scope.

(** ** Numbers *)

Definition float := spec_float.

(** binary32 arithmetic (tensor elements) *)
Definition f32_add := SFadd 24 128.
Definition f32_mul := SFmul 24 128.
Definition f32_div := SFdiv 24 128.
Definition f32_of_Z (n : Z) : float := binary_normalize 24 128 n 0 false.

(** binary64 arithmetic (Python floats) *)
Definition f64_add := SFadd 53 1024.
Definition f64_div := SFdiv 53 1024.
Definition f64_of_Z (n : Z) : float := binary_normalize 53 1024 n 0 false.

(** [Tensor.item()]: the binary32 element as a Python float (exact). *)
Definition item (x : float) : float :=
  match x with
  | S754_finite s m e => binary_normalize 53 1024 (cond_Zopp s (Zpos m)) e s
  | _ => x
  end.

Arguments f32_add : simpl never.
Arguments f32_mul : simpl never.
Arguments f32_div : simpl never.
Arguments f32_of_Z : simpl never.
Arguments f64_add : simpl never.
Arguments f64_div : simpl never.
Arguments f64_of_Z : simpl never.
Arguments item : simpl never.

(** The literals [0.5], [0.] and [1.] at the tensor's dtype. *)
Definition half : float := S754_finite false 8388608 (-24).
Definition zero : float := S754_zero false.
Definition one : float := S754_finite false 8388608 (-23).

(** ** Tensors and the autograd graph *)

Inductive grad_fn :=
| Leaf
| NetBackward (bx bt : list float)
| MseLossBackward (input : grad_fn) (target : list float)
| MaskedFillBackward (input : grad_fn) (mask : list bool) (value : float).

Record Tensor := { data : list float; node : grad_fn }.

(** [t < c] and [t >= c] against a scalar: elementwise, a bool tensor. *)
Definition lt_scalar (t : Tensor) (c : float) : list bool :=
  map (fun x => SFltb x c) (data t).
Definition ge_scalar (t : Tensor) (c : float) : list bool :=
  map (fun x => SFleb c x) (data t).

Definition fill (x : float) (b : bool) (v : float) : float :=
  if b then v else x.

(** [t.masked_fill(mask, v)]: out of place, a new tensor; the result has a
    history exactly when the input has one. *)
Definition masked_fill (t : Tensor) (mask : list bool) (v : float) : Tensor :=
  {| data := zip_with (fun x b => fill x b v) (data t) mask;
     node := match node t with
             | Leaf => Leaf
             | n => MaskedFillBackward n mask v
             end |}.

(** [t.data]: the same values, detached from the graph. *)
Definition detach (t : Tensor) : Tensor := {| data := data t; node := Leaf |}.

(** The two statements shared by [test] (lines 64-65) and [train]
    (lines 136-137):
      x = x.masked_fill(x < 0.5, 0.)
      x = x.masked_fill(x >= 0.5, 1.)
    The second mask is computed from the tensor the first statement
    produced. *)
Definition binarize (x : Tensor) : Tensor :=
  let x := masked_fill x (lt_scalar x half) zero in
  let x := masked_fill x (ge_scalar x half) one in
  x.

(** [a.eq(b).float()]: elementwise equality as 0./1. *)
Definition eq_float (a b : list float) : list float :=
  zip_with (fun x y => if SFeqb x y then one else zero) a b.

(** ** Exceptions and computations *)

Inductive exn :=
| ValueError
| ZeroDivisionError
| StopIteration
| TypeError
| SystemExit (code : Z)
| OtherError (what : string).

(** Python's [a % b] on integers. *)
Definition py_mod (a b : Z) : exn + Z :=
  if decide (b = 0) then inl ZeroDivisionError else inr (a mod b).

(** [l.index(x)]: the position of the first occurrence. *)
Fixpoint list_index (x : string) (l : list string) : exn + nat :=
  match l with
  | [] => inl ValueError
  | y :: l' =>
      if decide (y = x) then inr 0%nat
      else match list_index x l' with
           | inl e => inl e
           | inr k => inr (S k)
           end
  end.

(** [l[lo:hi]] for non-negative bounds. *)
Definition slice {A} (lo hi : nat) (l : list A) : list A := drop lo (take hi l).

Definition is_ok {A} (r : exn + A) : bool :=
  match r with
  | inr _ => true
  | inl _ => false
  end.

(** Line 25: [argv = sys.argv[1:sys.argv.index('--')]] *)
Definition cli_argv (sys_argv : list string) : exn + list string :=
  match list_index "--" sys_argv with
  | inl e => inl e
  | inr k => inr (slice 1 k sys_argv)
  end.

(** [range(a, b)] *)
Definition range (a b : Z) : list Z :=
  map (fun k => a + Z.of_nat k) (seq 0 (Z.to_nat (b - a))).

(** A computation over a state [S]: the state it leaves, the events it
    emitted (oldest first) and its value or the exception raised.  An
    exception keeps the state and the events reached so far. *)
Record Run (E S A : Type) := MkRun {
  post : S;
  emitted : list E;
  result : exn + A
}.
Arguments MkRun {E S A}.
Arguments post {E S A}.
Arguments emitted {E S A}.
Arguments result {E S A}.

Definition M (E S A : Type) := S -> Run E S A.

(** The run [r] after the events [evs]. *)
Definition after {E S A} (evs : list E) (r : Run E S A) : Run E S A :=
  MkRun (post r) (evs ++ emitted r) (result r).

Definition ret {E S A} (a : A) : M E S A :=
  fun s => MkRun s [] (inr a).

Definition raise {E S A} (e : exn) : M E S A :=
  fun s => MkRun s [] (inl e).

Definition bind {E S A B} (m : M E S A) (k : A -> M E S B) : M E S B :=
  fun s =>
    let r := m s in
    match result r with
    | inl e => MkRun (post r) (emitted r) (inl e)
    | inr a =>
        let r' := k a (post r) in
        MkRun (post r') (emitted r ++ emitted r') (result r')
    end.

Definition emit {E S} (ev : E) : M E S unit :=
  fun s => MkRun s [ev] (inr tt).

Definition get {E S} : M E S S :=
  fun s => MkRun s [] (inr s).

Definition modify {E S} (f : S -> S) : M E S unit :=
  fun s => MkRun (f s) [] (inr tt).

(** A value or an exception computed without effects. *)
Definition lift {E S A} (x : exn + A) : M E S A :=
  match x with
  | inl e => raise e
  | inr a => ret a
  end.

Notation "x <- c1 ;; c2" := (bind c1 (fun x => c2))
  (at level 100, c1 at next level, right associativity).
Notation "c1 ;; c2" := (bind c1 (fun _ => c2))
  (at level 100, right associativity).

(** [for x in xs: body x] *)
Fixpoint for_each {E S A} (xs : list A) (body : A -> M E S unit) : M E S unit :=
  match xs with
  | [] => ret tt
  | x :: xs' => body x ;; for_each xs' body
  end.

(** ** The configuration node *)

Record CfgNode := {
  batch_size : Z;
  num_threads : Z;
  num_epoch : Z;
  freq_plot : Z;
  freq_show : Z;
  freq_save : Z;
  freq_eval : Z;
  ckpt_path : string;
  name : string;
  overfit : bool;
  is_frozen : bool
}.

(** [cfg.freeze()] *)
Definition freeze (c : CfgNode) : CfgNode :=
  {| batch_size := batch_size c; num_threads := num_threads c;
     num_epoch := num_epoch c; freq_plot := freq_plot c;
     freq_show := freq_show c; freq_save := freq_save c;
     freq_eval := freq_eval c; ckpt_path := ckpt_path c;
     name := name c; overfit := overfit c; is_frozen := true |}.

Record Batch := {
  data_BX : list float;
  data_BT : list float;
  targets : list float
}.

(** ** What the script imports

    The framework (argparse, yacs, torch) and the repository's own
    modules under [lib/] are outside this file; the script is modelled
    over their interface. *)
Class Framework := {
  Sample : Type;
  Weights : Type;
  Grad : Type;
  OptState : Type;
  (** [parser.parse_args(argv).config_file] for the parser of lines
      22-24; [None] when the flag is absent. *)
  parse_args : list string -> exn + option string;
  (** [get_cfg_defaults()] *)
  cfg_defaults : CfgNode;
  (** [cfg.merge_from_file(path)] on a file system *)
  merge_from_file : CfgNode -> option string -> gmap string string -> exn + CfgNode;
  (** [AMASSdataset(cfg, split)]: its samples and [num_poses] *)
  AMASSdataset : CfgNode -> string -> list Sample;
  num_poses : list Sample -> Z;
  (** the loader's default collate function *)
  collate : list Sample -> Batch;
  (** the order a shuffling loader draws at random state [s] *)
  shuffle : nat -> list Sample -> list Sample;
  shuffle_perm : forall s l, Permutation (shuffle s l) l;
  (** [Net(num_poses, 4, 40, 4)] at a random state, and its forward
      pass in training ([true]) or evaluation ([false]) mode *)
  Net_init : Z -> nat -> Weights;
  net_forward : Weights -> bool -> list float -> list float -> list float;
  (** value of [F.mse_loss] and of [Tensor.mean] *)
  mse : list float -> list float -> float;
  mean : list float -> float;
  (** [loss.backward()]: the gradient of a graph with respect to the
      parameters, and accumulation into [.grad] *)
  autograd : Weights -> grad_fn -> Grad;
  grad_acc : Grad -> Grad -> Grad;
  (** the optimizer built by the trainer and one [optimizer.step()] at the
      learning rate the scheduler has reached *)
  optimizer_init : CfgNode -> OptState;
  optimizer_step : nat -> OptState -> Weights -> Grad -> OptState * Weights;
  (** [torch.load] *)
  unpickle : string -> exn + (Weights * OptState * Z * Z)
}.

Section Script.

Context `{fw : Framework}.

(** ** Events *)

Inductive message :=
| MsgCkptNotFound (path : string)
| MsgDataSize (train_size loader_size : nat)
| MsgIter (name : string) (epoch iteration : Z) (niter : nat) (loss correct : float)
| MsgTest (avg_loss accuracy : float).

Inductive event :=
| ParseArgs (argv : list string)
| GetCfgDefaults
| MergeFromFile (path : option string)
| Freeze
| NewDataset (split : string)
| NewLoader (split : string)
| NewNet
| NewTrainer
| LoadCkpt (path : string)
| Info (msg : message)
| AddGraph
| NetTrain
| NetEval
| NextBatch (split : string) (samples : list Sample)
| Forward (with_grad : bool)
| ZeroGrad
| Backward (loss : Tensor)
| OptimizerStep
| SchedulerStep
| AddScalar (tag : string) (value : float) (step : Z)
| Render
| AddImage (step : Z)
| UpdateCkpt (epoch iteration : Z).

(** ** Import time: lines 22-36 *)

Definition startup (fs : gmap string string) (sys_argv : list string)
  : M event unit CfgNode :=
  argv <- lift (cli_argv sys_argv) ;;
  emit (ParseArgs argv) ;;
  config_file <- lift (parse_args argv) ;;
  emit GetCfgDefaults ;;
  let cfg := cfg_defaults in
  emit (MergeFromFile config_file) ;;
  cfg <- lift (merge_from_file cfg config_file fs) ;;
  emit Freeze ;;
  ret (freeze cfg).

(** ** The state the script works on

    The network object (parameters and mode flag), the accumulated
    gradient, optimizer and scheduler, torch's random state and grad
    mode, the iterator over the training loader, and the trainer's
    cursor. *)

Record State := {
  weights : Weights;
  training : bool;
  grads : option Grad;
  opt_state : OptState;
  sched_steps : nat;
  rng : nat;
  grad_enabled : bool;
  loader : list (list Sample);
  cur_iteration : Z;
  cur_epoch : Z
}.

Definition set_net (w : Weights) (st : State) : State :=
  {| weights := w; training := training st; grads := grads st;
     opt_state := opt_state st; sched_steps := sched_steps st;
     rng := rng st; grad_enabled := grad_enabled st; loader := loader st;
     cur_iteration := cur_iteration st; cur_epoch := cur_epoch st |}.

Definition set_training (b : bool) (st : State) : State :=
  {| weights := weights st; training := b; grads := grads st;
     opt_state := opt_state st; sched_steps := sched_steps st;
     rng := rng st; grad_enabled := grad_enabled st; loader := loader st;
     cur_iteration := cur_iteration st; cur_epoch := cur_epoch st |}.

Definition set_grads (g : option Grad) (st : State) : State :=
  {| weights := weights st; training := training st; grads := g;
     opt_state := opt_state st; sched_steps := sched_steps st;
     rng := rng st; grad_enabled := grad_enabled st; loader := loader st;
     cur_iteration := cur_iteration st; cur_epoch := cur_epoch st |}.

Definition set_optimizer (o : OptState) (st : State) : State :=
  {| weights := weights st; training := training st; grads := grads st;
     opt_state := o; sched_steps := sched_steps st;
     rng := rng st; grad_enabled := grad_enabled st; loader := loader st;
     cur_iteration := cur_iteration st; cur_epoch := cur_epoch st |}.

Definition set_sched_steps (n : nat) (st : State) : State :=
  {| weights := weights st; training := training st; grads := grads st;
     opt_state := opt_state st; sched_steps := n;
     rng := rng st; grad_enabled := grad_enabled st; loader := loader st;
     cur_iteration := cur_iteration st; cur_epoch := cur_epoch st |}.

Definition set_rng (n : nat) (st : State) : State :=
  {| weights := weights st; training := training st; grads := grads st;
     opt_state := opt_state st; sched_steps := sched_steps st;
     rng := n; grad_enabled := grad_enabled st; loader := loader st;
     cur_iteration := cur_iteration st; cur_epoch := cur_epoch st |}.

Definition set_grad_enabled (b : bool) (st : State) : State :=
  {| weights := weights st; training := training st; grads := grads st;
     opt_state := opt_state st; sched_steps := sched_steps st;
     rng := rng st; grad_enabled := b; loader := loader st;
     cur_iteration := cur_iteration st; cur_epoch := cur_epoch st |}.

Definition set_loader (l : list (list Sample)) (st : State) : State :=
  {| weights := weights st; training := training st; grads := grads st;
     opt_state := opt_state st; sched_steps := sched_steps st;
     rng := rng st; grad_enabled := grad_enabled st; loader := l;
     cur_iteration := cur_iteration st; cur_epoch := cur_epoch st |}.

Definition set_cursor (epoch iteration : Z) (st : State) : State :=
  {| weights := weights st; training := training st; grads := grads st;
     opt_state := opt_state st; sched_steps := sched_steps st;
     rng := rng st; grad_enabled := grad_enabled st; loader := loader st;
     cur_iteration := iteration; cur_epoch := epoch |}.

Definition Prog := M event State.

(** ** The batch loader *)

(** The batch sampler: groups of [b] consecutive samples; a last, shorter
    group is dropped under [drop_last] and kept otherwise. *)
Fixpoint batches_aux (fuel b : nat) (drop_last : bool) (l : list Sample)
  : list (list Sample) :=
  match fuel with
  | O => []
  | S fuel' =>
      match l with
      | [] => []
      | _ :: _ =>
          if (b <=? length l)%nat
          then take b l :: batches_aux fuel' b drop_last (drop b l)
          else if drop_last then [] else [l]
      end
  end.

Definition batches (b : nat) (drop_last : bool) (l : list Sample) :=
  batches_aux (length l) b drop_last l.

(** [len(loader)] *)
Definition loader_len (n b : Z) (drop_last : bool) : Z :=
  if drop_last then n / b else (n + b - 1) / b.

(** [DataLoader(dataset, batch_size=bs, num_workers=nw, ...)]: the
    constructor refuses a negative worker count and a batch size that is
    not positive. *)
Definition DataLoader (split : string) (bs nw : Z) : Prog unit :=
  if decide (nw < 0) then raise ValueError
  else if decide (bs <= 0) then raise ValueError
  else emit (NewLoader split).

(** [iter(train_data_loader)]: a fresh shuffle of the training set. *)
Definition iter_train (ds : list Sample) (bs : Z) : Prog unit :=
  st <- get ;;
  modify (set_loader (batches (Z.to_nat bs) true (shuffle (rng st) ds))) ;;
  modify (set_rng (S (rng st))).

(** [next(loader)] *)
Definition next_batch : Prog Batch :=
  st <- get ;;
  match loader st with
  | [] => raise StopIteration
  | g :: rest =>
      modify (set_loader rest) ;;
      emit (NextBatch "train" g) ;;
      ret (collate g)
  end.

(** ** Network, loss, autograd *)

(** [net(bx, bt)]: recorded in the graph only in grad mode. *)
Definition call_net (bx bt : list float) : Prog Tensor :=
  st <- get ;;
  emit (Forward (grad_enabled st)) ;;
  ret {| data := net_forward (weights st) (training st) bx bt;
         node := if grad_enabled st then NetBackward bx bt else Leaf |}.

(** [F.mse_loss(output, target)]: a tensor of one element. *)
Definition mse_loss (output : Tensor) (target : list float) : Tensor :=
  {| data := [mse (data output) target];
     node := match node output with
             | Leaf => Leaf
             | n => MseLossBackward n target
             end |}.

(** the value of a one-element tensor *)
Definition scalar (t : Tensor) : float := List.hd S754_nan (data t).

(** [a.eq(b).float().mean()] *)
Definition accuracy (pred : Tensor) (target : list float) : float :=
  mean (eq_float (data pred) target).

(** [optimizer.zero_grad()] *)
Definition zero_grad : Prog unit :=
  emit ZeroGrad ;; modify (set_grads None).

(** [loss.backward()]: refuses a tensor without history; otherwise adds
    the gradient of the tensor's graph to the stored gradient. *)
Definition backward (loss : Tensor) : Prog unit :=
  match node loss with
  | Leaf => raise (OtherError "RuntimeError")
  | n =>
      emit (Backward loss) ;;
      st <- get ;;
      let g := autograd (weights st) n in
      modify (set_grads (Some match grads st with
                              | None => g
                              | Some g0 => grad_acc g0 g
                              end))
  end.

(** [optimizer.step()] *)
Definition optimizer_step_ : Prog unit :=
  emit OptimizerStep ;;
  st <- get ;;
  match grads st with
  | None => ret tt
  | Some g =>
      let '(o, w) := optimizer_step (sched_steps st) (opt_state st) (weights st) g in
      modify (set_optimizer o) ;; modify (set_net w)
  end.

(** [scheduler.step()] *)
Definition scheduler_step : Prog unit :=
  emit SchedulerStep ;;
  st <- get ;;
  modify (set_sched_steps (S (sched_steps st))).

(** [net.eval()] and [net.train()] *)
Definition net_eval : Prog unit := emit NetEval ;; modify (set_training false).
Definition net_train : Prog unit := emit NetTrain ;; modify (set_training true).

(** [with torch.no_grad(): m]: grad mode is off inside and restored on
    the way out, also when [m] raises. *)
Definition no_grad {A} (m : Prog A) : Prog A :=
  fun st =>
    let r := m (set_grad_enabled false st) in
    MkRun (set_grad_enabled (grad_enabled st) (post r)) (emitted r) (result r).

(** ** Held-out evaluation: [test(net, logger)], lines 40-71 *)

(** The body of [for data_dict in pbar], lines 55-67, on the two
    accumulators [test_loss] and [correct]. *)
Definition test_batch (g : list Sample) (acc : float * float)
  : Prog (float * float) :=
  let '(test_loss, correct) := acc in
  emit (NextBatch "test" g) ;;
  let data_dict := collate g in
  let target := targets data_dict in
  output <- call_net (data_BX data_dict) (data_BT data_dict) ;;
  let test_loss := f64_add test_loss (item (scalar (mse_loss output target))) in
  let pred := detach output in
  let pred := binarize pred in
  let correct := f32_add correct (accuracy pred target) in
  ret (test_loss, correct).

Fixpoint test_batches (gs : list (list Sample)) (acc : float * float)
  : Prog (float * float) :=
  match gs with
  | [] => ret acc
  | g :: gs' => acc' <- test_batch g acc ;; test_batches gs' acc'
  end.

(** The accumulators start at the integer 0, which the first addition
    turns into a float; dividing by [len(test_loader.dataset)] raises when
    that is 0. *)
Definition test (cfg : CfgNode) : Prog unit :=
  net_eval ;;
  emit (NewDataset "test") ;;
  let test_dataset := AMASSdataset cfg "test" in
  DataLoader "test" (batch_size cfg) 12 ;;
  let test_loader := batches (Z.to_nat (batch_size cfg)) false test_dataset in
  let test_loss := zero in
  let correct := zero in
  acc <- no_grad (test_batches test_loader (test_loss, correct)) ;;
  let '(test_loss, correct) := acc in
  let n := Z.of_nat (length test_dataset) in
  if decide (n = 0) then raise ZeroDivisionError
  else
    let test_loss := f64_div test_loss (f64_of_Z n) in
    emit (Info (MsgTest test_loss
                  (f32_div (f32_mul (f32_of_Z 100) correct) (f32_of_Z n)))).

(** ** Training: [train(device)], lines 74-182 *)

(** Modelled from the spec: [Trainer(net, cfg, use_tb=True)] of
    lib/common/trainer.py, which is not among the sources.  The trainer
    owns optimizer, scheduler and the training cursor, and the cursor is
    "resumed from checkpoint or initialized to zero". *)
Definition new_trainer (cfg : CfgNode) (st : State) : State :=
  set_cursor 0 0
    (set_sched_steps 0 (set_grads None (set_optimizer (optimizer_init cfg) st))).

(** Modelled from the spec: [trainer.load_ckpt(path)] of
    lib/common/trainer.py.  A checkpoint is the "persisted record of
    network parameters, optimizer state, epoch index, iteration index";
    loading puts the four back. *)
Definition load_ckpt (fs : gmap string string) (path : string) : Prog unit :=
  emit (LoadCkpt path) ;;
  match fs !! path with
  | None => raise (OtherError "FileNotFoundError")
  | Some blob =>
      c <- lift (unpickle blob) ;;
      let '(w, o, epoch, iteration) := c in
      modify (set_net w) ;;
      modify (set_optimizer o) ;;
      modify (set_cursor epoch iteration)
  end.

(** [os.path.exists(path)] *)
Definition path_exists (fs : gmap string string) (path : string) : bool :=
  bool_decide (is_Some (fs !! path)).

(** Lines 90-93. *)
Definition load_or_report (fs : gmap string string) (cfg : CfgNode) : Prog unit :=
  if path_exists fs (ckpt_path cfg)
  then load_ckpt fs (ckpt_path cfg)
  else emit (Info (MsgCkptNotFound (ckpt_path cfg))).

(** [iteration % f == 0 and iteration > 0 [and not cfg.overfit]]: the
    modulus is evaluated first, so a zero frequency raises. *)
Definition due_now (iteration f : Z) (extra : bool) : bool :=
  bool_decide (iteration mod f = 0) && bool_decide (0 < iteration) && extra.

Definition due (iteration f : Z) (extra : bool) : Prog bool :=
  m <- lift (py_mod iteration f) ;;
  ret (bool_decide (m = 0) && bool_decide (0 < iteration) && extra).

Definition when (b : bool) (m : Prog unit) : Prog unit :=
  if b then m else ret tt.

(** Lines 148-159, [# print]. *)
Definition print_block (cfg : CfgNode) (epoch iteration niter global_step : Z)
    (loss : Tensor) (correct : float) : Prog unit :=
  b <- due iteration (freq_plot cfg) true ;;
  when b (
    emit (Info (MsgIter (name cfg) epoch iteration (Z.to_nat niter)
                  (item (scalar loss)) (item correct))) ;;
    emit (AddScalar "data/loss" (item (scalar loss)) global_step) ;;
    emit (AddScalar "data/prop" (item correct) global_step)).

(** Lines 161-165, [# update image]. *)
Definition image_block (cfg : CfgNode) (iteration global_step : Z) : Prog unit :=
  b <- due iteration (freq_show cfg) true ;;
  when b (emit Render ;; emit (AddImage global_step)).

(** Lines 167-170, [# save]. *)
Definition save_block (cfg : CfgNode) (epoch iteration : Z) : Prog unit :=
  b <- due iteration (freq_save cfg) (negb (overfit cfg)) ;;
  when b (emit (UpdateCkpt epoch iteration)).

(** Lines 172-176, [# evaluation]. *)
Definition evaluation_block (cfg : CfgNode) (iteration : Z) : Prog unit :=
  b <- due iteration (freq_eval cfg) (negb (overfit cfg)) ;;
  when b (net_eval ;; test cfg ;; net_train).

(** Lines 148-176: the four periodic side effects of an iteration. *)
Definition side_effects (cfg : CfgNode) (epoch iteration niter : Z)
    (global_step : Z) (loss : Tensor) (correct : float) : Prog unit :=
  print_block cfg epoch iteration niter global_step loss correct ;;
  image_block cfg iteration global_step ;;
  save_block cfg epoch iteration ;;
  evaluation_block cfg iteration.

(** Lines 123-179: one iteration of the inner loop. *)
Definition iteration_body (cfg : CfgNode) (epoch niter : Z) (iteration : Z)
  : Prog unit :=
  data_dict <- next_batch ;;
  let target := targets data_dict in
  let global_step := epoch * niter + iteration in
  output <- call_net (data_BX data_dict) (data_BT data_dict) ;;
  let loss := mse_loss output target in
  let output := binarize output in
  let correct := accuracy output target in
  zero_grad ;;
  backward loss ;;
  optimizer_step_ ;;
  side_effects cfg epoch iteration niter global_step loss correct.

(** Lines 108-182: one epoch; the value is the [start_iter] the next
    epoch sees. *)
Definition epoch_body (cfg : CfgNode) (train_dataset : list Sample)
    (epoch start_iter : Z) : Prog Z :=
  net_train ;;
  DataLoader "train" (batch_size cfg) (num_threads cfg) ;;
  iter_train train_dataset (batch_size cfg) ;;
  let niter := loader_len (Z.of_nat (length train_dataset)) (batch_size cfg) true in
  for_each (range start_iter niter) (iteration_body cfg epoch niter) ;;
  scheduler_step ;;
  let start_iter := 0 in
  ret start_iter.

(** [for epoch in range(start_epoch, cfg.num_epoch)], with the local
    [start_iter] threaded from one epoch to the next. *)
Fixpoint epochs (cfg : CfgNode) (train_dataset : list Sample)
    (es : list Z) (start_iter : Z) : Prog unit :=
  match es with
  | [] => ret tt
  | epoch :: es' =>
      start_iter' <- epoch_body cfg train_dataset epoch start_iter ;;
      epochs cfg train_dataset es' start_iter'
  end.

(** Lines 77-102: data set, loader, network, trainer, checkpoint. *)
Definition setup (fs : gmap string string) (cfg : CfgNode)
  : Prog (list Sample) :=
  emit (NewDataset "train") ;;
  let train_dataset := AMASSdataset cfg "train" in
  DataLoader "train" (batch_size cfg) (num_threads cfg) ;;
  st <- get ;;
  emit NewNet ;;
  modify (set_net (Net_init (num_poses train_dataset) (rng st))) ;;
  modify (set_training true) ;;
  modify (set_rng (S (rng st))) ;;
  emit NewTrainer ;;
  modify (new_trainer cfg) ;;
  load_or_report fs cfg ;;
  emit (Info (MsgDataSize (length train_dataset)
                (Z.to_nat (loader_len (Z.of_nat (length train_dataset))
                             (batch_size cfg) true)))) ;;
  st <- get ;;
  modify (set_rng (2 + rng st)%nat) ;;
  emit AddGraph ;;
  ret train_dataset.

Definition train (fs : gmap string string) (cfg : CfgNode) : Prog unit :=
  train_dataset <- setup fs cfg ;;
  st <- get ;;
  let start_iter := cur_iteration st in
  let start_epoch := cur_epoch st in
  epochs cfg train_dataset (range start_epoch (num_epoch cfg)) start_iter.

(** The whole script: import-time configuration, then [train()]. *)
Definition script (fs : gmap string string) (sys_argv : list string)
  : Prog unit :=
  fun st =>
    let r := startup fs sys_argv tt in
    match result r with
    | inl e => MkRun st (emitted r) (inl e)
    | inr cfg =>
        let r' := train fs cfg st in
        MkRun (post r') (emitted r ++ emitted r') (result r')
    end.

End Script.

Arguments no_grad : simpl never.
Arguments binarize : simpl never.

(** ** A small instance of the interface

    Used to run the script on concrete inputs: a sample is a pair
    (input value, target value), the network returns its first input
    unchanged, the loader keeps the data set's order, and the reductions
    are sequential binary32 sums. *)

Definition f32_sum (l : list float) : float := fold_left f32_add l zero.

Definition toy_mean (l : list float) : float :=
  f32_div (f32_sum l) (f32_of_Z (Z.of_nat (length l))).

Definition toy_mse (a b : list float) : float :=
  toy_mean (zip_with (fun x y => let d := SFsub 24 128 x y in f32_mul d d) a b).

Definition toy_parse_args (argv : list string) : exn + option string :=
  match argv with
  | [] => inr None
  | [flag; path] =>
      if decide (flag = "-cfg") then inr (Some path)
      else if decide (flag = "--config_file") then inr (Some path)
      else inl (SystemExit 2)
  | _ => inl (SystemExit 2)
  end.

Definition toy_cfg : CfgNode :=
  {| batch_size := 2; num_threads := 0; num_epoch := 2;
     freq_plot := 1; freq_show := 1; freq_save := 1; freq_eval := 1;
     ckpt_path := "ckpt.pth"; name := "toy"; overfit := false;
     is_frozen := false |}.

Definition toy_merge (c : CfgNode) (path : option string)
    (fs : gmap string string) : exn + CfgNode :=
  match path with
  | None => inl TypeError
  | Some p =>
      match fs !! p with
      | None => inl (OtherError "FileNotFoundError")
      | Some _ => inr c
      end
  end.

Definition toy_dataset (split : string) : list (float * float) :=
  if decide (split = "test")
  then [(one, one); (one, zero); (one, one); (one, zero)]
  else [(one, one); (zero, zero); (one, zero)].

#[local] Instance toy : Framework := {|
  Sample := float * float;
  Weights := unit;
  Grad := unit;
  OptState := unit;
  parse_args := toy_parse_args;
  cfg_defaults := toy_cfg;
  merge_from_file := toy_merge;
  AMASSdataset := fun _ split => toy_dataset split;
  num_poses := fun _ => 1;
  collate := fun g => {| data_BX := map fst g; data_BT := map fst g;
                         targets := map snd g |};
  shuffle := fun _ l => l;
  shuffle_perm := fun _ l => Permutation_refl l;
  Net_init := fun _ _ => tt;
  net_forward := fun _ _ bx _ => bx;
  mse := toy_mse;
  mean := toy_mean;
  autograd := fun _ _ => tt;
  grad_acc := fun _ _ => tt;
  optimizer_init := fun _ => tt;
  optimizer_step := fun _ _ _ _ => (tt, tt);
  unpickle := fun _ => inr (tt, tt, 1, 1)
|}.

Definition toy_state : State (fw := toy) :=
  {| weights := tt; training := true; grads := None; opt_state := tt;
     sched_steps := 0; rng := 0; grad_enabled := true; loader := [];
     cur_iteration := 0; cur_epoch := 0 |}.

Definition toy_fs : gmap string string := {[ "cfg.yaml" := "batch_size: 2" ]}.

(** A state in the middle of an epoch, with one batch left to fetch. *)
Definition toy_state_mid : State (fw := toy) :=
  {| weights := tt; training := true; grads := None; opt_state := tt;
     sched_steps := 0; rng := 1; grad_enabled := true;
     loader := [[(one, one); (zero, zero)]];
     cur_iteration := 0; cur_epoch := 0 |}.

(** 0.25 and 0.5 as Python floats; 25 and 50 as binary32 values. *)
Definition quarter64 : float := S754_finite false 4503599627370496 (-54).
Definition half64 : float := S754_finite false 4503599627370496 (-53).
Definition f32_25 : float := S754_finite false 13107200 (-19).
Definition f32_50 : float := S754_finite false 13107200 (-18).

(** Variants of the small configuration: image frequency 0, and the
    overfit flag set. *)
Definition toy_cfg_zero_show : CfgNode :=
  {| batch_size := 2; num_threads := 0; num_epoch := 2;
     freq_plot := 1; freq_show := 0; freq_save := 1; freq_eval := 1;
     ckpt_path := "ckpt.pth"; name := "toy"; overfit := false;
     is_frozen := false |}.

Definition toy_cfg_overfit : CfgNode :=
  {| batch_size := 2; num_threads := 0; num_epoch := 2;
     freq_plot := 1; freq_show := 1; freq_save := 1; freq_eval := 1;
     ckpt_path := "ckpt.pth"; name := "toy"; overfit := true;
     is_frozen := false |}.

(** The small instance with an empty held-out split. *)
Definition toy_dataset_no_held_out (split : string) : list (float * float) :=
  if decide (split = "test") then [] else [(one, one); (zero, zero); (one, zero)].

#[local] Instance toy_no_held_out : Framework := {|
  Sample := float * float;
  Weights := unit;
  Grad := unit;
  OptState := unit;
  parse_args := toy_parse_args;
  cfg_defaults := toy_cfg;
  merge_from_file := toy_merge;
  AMASSdataset := fun _ split => toy_dataset_no_held_out split;
  num_poses := fun _ => 1;
  collate := fun g => {| data_BX := map fst g; data_BT := map fst g;
                         targets := map snd g |};
  shuffle := fun _ l => l;
  shuffle_perm := fun _ l => Permutation_refl l;
  Net_init := fun _ _ => tt;
  net_forward := fun _ _ bx _ => bx;
  mse := toy_mse;
  mean := toy_mean;
  autograd := fun _ _ => tt;
  grad_acc := fun _ _ => tt;
  optimizer_init := fun _ => tt;
  optimizer_step := fun _ _ _ _ => (tt, tt);
  unpickle := fun _ => inr (tt, tt, 1, 1)
|}.

Definition toy_state_no_held_out : State (fw := toy_no_held_out) :=
  {| weights := tt; training := true; grads := None; opt_state := tt;
     sched_steps := 0; rng := 0; grad_enabled := true; loader := [];
     cur_iteration := 0; cur_epoch := 0 |}.

(** Batches of one sample, and batches wider than the training set. *)
Definition toy_cfg_single : CfgNode :=
  {| batch_size := 1; num_threads := 0; num_epoch := 2;
     freq_plot := 1; freq_show := 1; freq_save := 1; freq_eval := 1;
     ckpt_path := "ckpt.pth"; name := "toy"; overfit := false;
     is_frozen := false |}.

Definition toy_cfg_wide : CfgNode :=
  {| batch_size := 4; num_threads := 0; num_epoch := 2;
     freq_plot := 1; freq_show := 1; freq_save := 1; freq_eval := 1;
     ckpt_path := "ckpt.pth"; name := "toy"; overfit := false;
     is_frozen := false |}.

(** ** Vocabulary of the properties *)

(** [i] is a positive multiple of [f]. *)
Definition positive_multiple (i f : Z) : Prop := 0 < i /\ (f | i).

(** One element through the two [masked_fill] statements. *)
Definition binarize_elem (x : float) : float :=
  let y := fill x (SFltb x half) zero in
  fill y (SFleb half y) one.

(** An output value [x] and a target value [y] agree: [x] is below the
    threshold and [y] is 0, or [x] is at least the threshold and [y] is 1. *)
Definition agrees (x y : float) : bool :=
  (SFltb x half && SFeqb y zero) || (SFleb half x && SFeqb y one).

Section Observations.

Context `{fw : Framework}.

(** The four periodic side effects, as they show in the events. *)
Definition is_scalar_log (ev : event) : bool :=
  match ev with
  | Info (MsgIter _ _ _ _ _ _) | AddScalar _ _ _ => true
  | _ => false
  end.

Definition is_render (ev : event) : bool :=
  match ev with
  | Render | AddImage _ => true
  | _ => false
  end.

Definition is_save (ev : event) : bool :=
  match ev with
  | UpdateCkpt _ _ => true
  | _ => false
  end.

Definition is_eval (ev : event) : bool :=
  match ev with
  | NetEval | Info (MsgTest _ _) => true
  | _ => false
  end.

(** The training batches an event list fetched, in order. *)
Definition fetched_of (ev : event) : option (list Sample) :=
  match ev with
  | NextBatch split g => if String.eqb split "train" then Some g else None
  | _ => None
  end.

Definition fetched (evs : list event) : list (list Sample) :=
  omap fetched_of evs.

Definition is_scheduler_step (ev : event) : bool :=
  match ev with SchedulerStep => true | _ => false end.

Definition is_backward (ev : event) : bool :=
  match ev with Backward _ => true | _ => false end.

Definition is_optimizer_step (ev : event) : bool :=
  match ev with OptimizerStep => true | _ => false end.

(** What [test] computes from the parameters alone: the output on a
    held-out batch in evaluation mode, the two per-batch metrics, their
    running sums, the events of the pass and the outcome of the call. *)
Definition test_output (w : Weights) (g : list Sample) : Tensor :=
  {| data := net_forward w false (data_BX (collate g)) (data_BT (collate g));
     node := Leaf |}.

Definition batch_mse (w : Weights) (g : list Sample) : float :=
  item (mse (data (test_output w g)) (targets (collate g))).

Definition batch_accuracy (w : Weights) (g : list Sample) : float :=
  accuracy (binarize (test_output w g)) (targets (collate g)).

Definition test_sums (w : Weights) (gs : list (list Sample))
    (acc : float * float) : float * float :=
  fold_left (fun a g => (f64_add (fst a) (batch_mse w g),
                         f32_add (snd a) (batch_accuracy w g))) gs acc.

Definition test_events (gs : list (list Sample)) : list event :=
  flat_map (fun g => [NextBatch "test" g; Forward false]) gs.

Definition test_loader (cfg : CfgNode) : list (list Sample) :=
  batches (Z.to_nat (batch_size cfg)) false (AMASSdataset cfg "test").

Definition test_message (cfg : CfgNode) (w : Weights) : event :=
  let sums := test_sums w (test_loader cfg) (zero, zero) in
  let n := Z.of_nat (length (AMASSdataset cfg "test")) in
  Info (MsgTest (f64_div (fst sums) (f64_of_Z n))
          (f32_div (f32_mul (f32_of_Z 100) (snd sums)) (f32_of_Z n))).

Definition test_spec (cfg : CfgNode) (w : Weights) : list event * (exn + unit) :=
  if decide (batch_size cfg <= 0)
  then ([NetEval; NewDataset "test"], inl ValueError)
  else if decide (Z.of_nat (length (AMASSdataset cfg "test")) = 0)
  then ([NetEval; NewDataset "test"; NewLoader "test"]
          ++ test_events (test_loader cfg), inl ZeroDivisionError)
  else ([NetEval; NewDataset "test"; NewLoader "test"]
          ++ test_events (test_loader cfg) ++ [test_message cfg w], inr tt).

(** The events of the [# print] and [# evaluation] branches when they
    are taken. *)
Definition print_events (cfg : CfgNode) (epoch iteration niter global_step : Z)
    (loss : Tensor) (correct : float) : list event :=
  [Info (MsgIter (name cfg) epoch iteration (Z.to_nat niter)
           (item (scalar loss)) (item correct));
   AddScalar "data/loss" (item (scalar loss)) global_step;
   AddScalar "data/prop" (item correct) global_step].

Definition evaluation_events (cfg : CfgNode) (w : Weights) : list event :=
  NetEval :: fst (test_spec cfg w)
    ++ match snd (test_spec cfg w) with
       | inr _ => [NetTrain]
       | inl _ => []
       end.

(** The events a held-out pass and the mode switches around it can
    emit. *)
Definition held_out_event (ev : event) : Prop :=
  match ev with
  | NetEval | NetTrain | NewDataset _ | NewLoader _ | Forward false
  | Info (MsgTest _ _) => True
  | NextBatch split _ => split = "test"
  | _ => False
  end.

(** The events the periodic side effects of an iteration can emit. *)
Definition periodic_event (ev : event) : Prop :=
  match ev with
  | Info (MsgIter _ _ _ _ _ _) | AddScalar _ _ _ | Render | AddImage _
  | UpdateCkpt _ _ => True
  | _ => held_out_event ev
  end.

(** Two states that differ at most in the network's mode flag. *)
Definition mode_only (s s' : State) : Prop := exists b, s' = set_training b s.

(** A computation that changes at most the mode flag, and one whose
    events all satisfy [P]. *)
Definition preserves {A} (m : Prog A) : Prop :=
  forall s, mode_only s (post (m s)).

Definition emits {A} (P : event -> Prop) (m : Prog A) : Prop :=
  forall s, Forall P (emitted (m s)).

(** The gradient step of an iteration that fetched batch [g]: network
    output, loss, accuracy, gradient, and the state after
    [optimizer.step()]. *)
Definition train_output (st : State) (g : list Sample) : Tensor :=
  {| data := net_forward (weights st) (training st)
               (data_BX (collate g)) (data_BT (collate g));
     node := NetBackward (data_BX (collate g)) (data_BT (collate g)) |}.

Definition train_loss (st : State) (g : list Sample) : Tensor :=
  mse_loss (train_output st g) (targets (collate g)).

Definition step_gradient (st : State) (g : list Sample) : Grad :=
  autograd (weights st)
    (MseLossBackward (NetBackward (data_BX (collate g)) (data_BT (collate g)))
       (targets (collate g))).

Definition after_step (st : State) (g : list Sample)
    (rest : list (list Sample)) : State :=
  let gr := step_gradient st g in
  let ow := optimizer_step (sched_steps st) (opt_state st) (weights st) gr in
  set_net (snd ow) (set_optimizer (fst ow) (set_grads (Some gr) (set_loader rest st))).

Definition step_events (st : State) (g : list Sample) : list event :=
  [NextBatch "train" g; Forward true; ZeroGrad; Backward (train_loss st g);
   OptimizerStep].

(** The iteration of lines 123-179 with the two [masked_fill] statements
    replaced by an arbitrary function on tensors; [iteration_body] is the
    instance at [binarize]. *)
Definition iteration_body_with (bin : Tensor -> Tensor) (cfg : CfgNode)
    (epoch niter : Z) (iteration : Z) : Prog unit :=
  data_dict <- next_batch ;;
  let target := targets data_dict in
  let global_step := epoch * niter + iteration in
  output <- call_net (data_BX data_dict) (data_BT data_dict) ;;
  let loss := mse_loss output target in
  let output := bin output in
  let correct := accuracy output target in
  zero_grad ;;
  backward loss ;;
  optimizer_step_ ;;
  side_effects cfg epoch iteration niter global_step loss correct.

(** The state [setup] reaches once network and trainer are constructed,
    before it looks for the checkpoint. *)
Definition constructed (cfg : CfgNode) (st : State) : State :=
  new_trainer cfg
    (set_rng (S (rng st))
       (set_training true
          (set_net (Net_init (num_poses (AMASSdataset cfg "train")) (rng st)) st))).

Definition data_size_message (cfg : CfgNode) : event :=
  Info (MsgDataSize (length (AMASSdataset cfg "train"))
          (Z.to_nat (loader_len (Z.of_nat (length (AMASSdataset cfg "train")))
                       (batch_size cfg) true))).

(** A configuration the loaders accept, with frequencies that can be
    divided by and a held-out set to average over. *)
Definition runnable (cfg : CfgNode) : Prop :=
  0 < batch_size cfg /\ 0 <= num_threads cfg /\
  freq_plot cfg <> 0 /\ freq_show cfg <> 0 /\
  freq_save cfg <> 0 /\ freq_eval cfg <> 0 /\
  AMASSdataset cfg "test" <> [].

(** The batches of an epoch that starts in state [st], the number of
    iterations [niter], and the state in which its first iteration
    runs. *)
Definition epoch_loader (cfg : CfgNode) (ds : list Sample) (st : State)
  : list (list Sample) :=
  batches (Z.to_nat (batch_size cfg)) true (shuffle (rng st) ds).

Definition niter_of (cfg : CfgNode) (ds : list Sample) : Z :=
  loader_len (Z.of_nat (length ds)) (batch_size cfg) true.

Definition epoch_start (cfg : CfgNode) (ds : list Sample) (st : State) : State :=
  set_rng (S (rng st)) (set_loader (epoch_loader cfg ds st) (set_training true st)).

(** The training batches [n] consecutive epochs fetch when the first one
    starts at iteration [s] with random state [seed]: each epoch draws a
    fresh shuffle and takes its batches from the front; every epoch after
    the first starts at iteration 0. *)
Fixpoint fetch_plan (cfg : CfgNode) (ds : list Sample) (n : nat) (s : Z)
    (seed : nat) : list (list Sample) :=
  match n with
  | O => []
  | S n' =>
      take (Z.to_nat (niter_of cfg ds - s))
        (batches (Z.to_nat (batch_size cfg)) true (shuffle seed ds))
      ++ fetch_plan cfg ds n' 0 (S seed)
  end.

(** Further observations on events. *)
Definition is_forward (ev : event) : bool :=
  match ev with Forward _ => true | _ => false end.

(** The held-out batches an event list fetched, in order. *)
Definition held_out_of (ev : event) : option (list Sample) :=
  match ev with
  | NextBatch split g => if String.eqb split "test" then Some g else None
  | _ => None
  end.

Definition held_out_fetched (evs : list event) : list (list Sample) :=
  omap held_out_of evs.

(** An event that is neither a checkpoint save nor part of a held-out
    evaluation. *)
Definition quiet_event (ev : event) : Prop :=
  is_save ev = false /\ is_eval ev = false.

(** What an event records of the loop position, if it records any: a
    tensorboard event is written at [step], a log line and a checkpoint
    name [epoch] and [iteration]. *)
Definition stamped (epoch iteration step : Z) (ev : event) : Prop :=
  match ev with
  | AddScalar _ _ s | AddImage s => s = step
  | Info (MsgIter _ e i _ _ _) | UpdateCkpt e i => e = epoch /\ i = iteration
  | _ => True
  end.

(** The state after the first [n] batches of the loader have each been
    used for one gradient step. *)
Fixpoint train_steps (n : nat) (st : State) : State :=
  match n with
  | O => st
  | S n' =>
      match loader st with
      | [] => st
      | g :: rest => train_steps n' (after_step st g rest)
      end
  end.

(** The events of [train] outside the periodic side effects: set-up,
    mode switch and loader of an epoch, gradient step, scheduler step. *)
Definition plumbing_event (ev : event) : Prop :=
  match ev with
  | NewDataset _ | NewLoader _ | NewNet | NewTrainer | LoadCkpt _
  | Info (MsgCkptNotFound _) | Info (MsgDataSize _ _) | AddGraph | NetTrain
  | NextBatch _ _ | Forward _ | ZeroGrad | Backward _ | OptimizerStep
  | SchedulerStep => True
  | _ => False
  end.

End Observations.

(** * Properties *)

(** ** Comparison against the threshold *)

Lemma SFcompare_antisym (x y : float) :
  SFcompare y x = option_map CompOpp (SFcompare x y).
Proof.
  destruct x as [sx|sx| |sx mx ex], y as [sy|sy| |sy my ey]; simpl;
    try reflexivity;
    try (destruct sx; reflexivity);
    try (destruct sy; reflexivity);
    try (destruct sx, sy; reflexivity).
  destruct sx, sy; simpl; try reflexivity;
    rewrite (Z.compare_antisym ex ey);
    destruct (ex ?= ey) eqn:He; simpl; try reflexivity;
    rewrite (Pos.compare_cont_antisym mx my Eq); reflexivity.
Qed.

Lemma SFleb_not_ltb (c x : float) : SFleb c x = true -> SFltb x c = false.
Proof.
  unfold SFleb, SFltb. rewrite (SFcompare_antisym c x).
  destruct (SFcompare c x) as [[]|]; simpl; congruence.
Qed.

Lemma binarize_elem_lt (x : float) : SFltb x half = true -> binarize_elem x = zero.
Proof. intros H. unfold binarize_elem. rewrite H. reflexivity. Qed.

Lemma binarize_elem_ge (x : float) : SFleb half x = true -> binarize_elem x = one.
Proof.
  intros H. unfold binarize_elem.
  rewrite (SFleb_not_ltb _ _ H). simpl. rewrite H. reflexivity.
Qed.

Lemma zip_with_map_self {A B C} (f : A -> B -> C) (g : A -> B) (l : list A) :
  zip_with f l (map g l) = map (fun x => f x (g x)) l.
Proof. induction l as [|a l IH]; simpl; [reflexivity | now rewrite IH]. Qed.

Lemma binarize_data (t : Tensor) : data (binarize t) = map binarize_elem (data t).
Proof.
  unfold binarize, masked_fill, lt_scalar, ge_scalar; simpl.
  rewrite zip_with_map_self, zip_with_map_self, map_map. reflexivity.
Qed.

(** C3: binarization sends every element strictly below 0.5 to 0 and
    every element greater than or equal to 0.5 to 1, so 0.5 itself goes
    to 1; [test] applies it to the detached output and [train] to the
    output itself, with the same element values. *)
Theorem binarize_threshold (t : Tensor) (i : nat) (x : float) :
  data t !! i = Some x ->
  (SFltb x half = true -> data (binarize t) !! i = Some zero) /\
  (SFleb half x = true -> data (binarize t) !! i = Some one) /\
  (x = half -> data (binarize t) !! i = Some one) /\
  data (binarize (detach t)) = data (binarize t).
Proof.
  intros Hx. rewrite !binarize_data. simpl.
  rewrite list_lookup_fmap, Hx. simpl.
  repeat split.
  - intros H. now rewrite binarize_elem_lt.
  - intros H. now rewrite binarize_elem_ge.
  - intros ->. reflexivity.
Qed.

(** ** Runs of composed computations *)

Lemma bind_inr {E S A B} (m : M E S A) (k : A -> M E S B) (s : S) (a : A) :
  result (m s) = inr a ->
  bind m k s = MkRun (post (k a (post (m s))))
                     (emitted (m s) ++ emitted (k a (post (m s))))
                     (result (k a (post (m s)))).
Proof. intros H. unfold bind. rewrite H. reflexivity. Qed.

Lemma bind_inl {E S A B} (m : M E S A) (k : A -> M E S B) (s : S) (e : exn) :
  result (m s) = inl e ->
  bind m k s = MkRun (post (m s)) (emitted (m s)) (inl e).
Proof. intros H. unfold bind. rewrite H. reflexivity. Qed.

Lemma run_eta {E S A} (r : Run E S A) : MkRun (post r) (emitted r) (result r) = r.
Proof. destruct r; reflexivity. Qed.

(** ** The command line *)

Lemma list_index_first (pre post : list string) :
  "--" ∉ pre -> list_index "--" (pre ++ "--" :: post) = inr (length pre).
Proof.
  induction pre as [|y pre IH]; intros Hn; simpl.
  - destruct (decide ("--" = "--")); [reflexivity | congruence].
  - apply not_elem_of_cons in Hn as [Hy Hn].
    destruct (decide (y = "--")); [congruence |].
    now rewrite (IH Hn).
Qed.

Lemma list_index_absent (l : list string) :
  "--" ∉ l -> list_index "--" l = inl ValueError.
Proof.
  induction l as [|y l IH]; intros Hn; simpl; [reflexivity |].
  apply not_elem_of_cons in Hn as [Hy Hn].
  destruct (decide (y = "--")); [congruence |].
  now rewrite (IH Hn).
Qed.

Lemma cli_argv_first (pre post : list string) :
  "--" ∉ pre -> cli_argv (pre ++ "--" :: post) = inr (drop 1 pre).
Proof.
  intros Hn. unfold cli_argv, slice.
  rewrite (list_index_first _ _ Hn), take_app_length. reflexivity.
Qed.

Section Properties.

Context `{fw : Framework}.

(** ** The held-out pass *)

Lemma test_batch_run (g : list Sample) (acc : float * float) (s : State) :
  training s = false -> grad_enabled s = false ->
  test_batch g acc s =
  MkRun s [NextBatch "test" g; Forward false]
    (inr (f64_add (fst acc) (batch_mse (weights s) g),
          f32_add (snd acc) (batch_accuracy (weights s) g))).
Proof.
  intros Ht Hg. destruct acc as [l c].
  unfold test_batch, call_net, bind, emit, get, ret; simpl.
  rewrite Ht, Hg. reflexivity.
Qed.

Lemma test_batches_run (gs : list (list Sample)) (acc : float * float) (s : State) :
  training s = false -> grad_enabled s = false ->
  test_batches gs acc s =
  MkRun s (test_events gs) (inr (test_sums (weights s) gs acc)).
Proof.
  intros Ht Hg. revert acc.
  induction gs as [|g gs IH]; intros acc; simpl.
  - reflexivity.
  - rewrite (bind_inr _ _ _ _ (f_equal result (test_batch_run g acc s Ht Hg))).
    rewrite (test_batch_run g acc s Ht Hg). simpl.
    rewrite IH. reflexivity.
Qed.

Lemma set_grad_enabled_back (b : bool) (st : State) :
  set_grad_enabled (grad_enabled st) (set_grad_enabled b st) = st.
Proof. destruct st; reflexivity. Qed.

Lemma no_grad_test_batches (gs : list (list Sample)) (acc : float * float)
    (s : State) :
  training s = false ->
  no_grad (test_batches gs acc) s =
  MkRun s (test_events gs) (inr (test_sums (weights s) gs acc)).
Proof.
  intros Ht. unfold no_grad.
  rewrite test_batches_run by (destruct s; simpl in *; congruence).
  simpl. rewrite set_grad_enabled_back. destruct s; reflexivity.
Qed.

(** [test] leaves the state as it found it, apart from the mode flag,
    and its events and outcome are a function of the configuration and
    the parameters. *)
Lemma test_run (cfg : CfgNode) (st : State) :
  test cfg st =
  MkRun (set_training false st)
        (fst (test_spec cfg (weights st))) (snd (test_spec cfg (weights st))).
Proof.
  unfold test, test_spec, net_eval, DataLoader.
  destruct (decide (12 < 0)) as [H12|_]; [lia |].
  destruct (decide (batch_size cfg <= 0)) as [Hb|Hb].
  { reflexivity. }
  fold (test_loader cfg).
  unfold bind, emit, modify, raise, ret; cbn [post emitted result app].
  rewrite no_grad_test_batches by reflexivity. cbn [post emitted result app].
  unfold test_message.
  change (weights (set_training false st)) with (weights st).
  destruct (test_sums (weights st) (test_loader cfg) (zero, zero)) as [l c].
  destruct (decide (Z.of_nat (length (AMASSdataset cfg "test")) = 0)) as [Hn|Hn];
    simpl; rewrite ?app_nil_r; reflexivity.
Qed.

(** ** The periodic side effects *)

Lemma due_now_spec (i f : Z) (extra : bool) :
  f <> 0 ->
  due_now i f extra = true <-> positive_multiple i f /\ extra = true.
Proof.
  intros Hf. unfold due_now, positive_multiple.
  rewrite !andb_true_iff, !bool_decide_eq_true, (Z.mod_divide i f Hf).
  tauto.
Qed.

Lemma due_run (i f : Z) (extra : bool) (s : State) :
  f <> 0 -> due i f extra s = MkRun s [] (inr (due_now i f extra)).
Proof.
  intros Hf. unfold due, py_mod.
  destruct (decide (f = 0)); [contradiction | reflexivity].
Qed.

Lemma due_zero (i : Z) (extra : bool) (s : State) :
  due i 0 extra s = MkRun s [] (inl ZeroDivisionError).
Proof. reflexivity. Qed.

Lemma bind_run {A B} (m : Prog A) (k : A -> Prog B) (s s1 : State)
    (evs : list event) (a : A) :
  m s = MkRun s1 evs (inr a) -> bind m k s = after evs (k a s1).
Proof. intros H. unfold bind. rewrite H. reflexivity. Qed.

Lemma after_after {S A} (evs1 evs2 : list event) (r : Run event S A) :
  after evs1 (after evs2 r) = after (evs1 ++ evs2) r.
Proof. unfold after. cbn [post emitted result]. now rewrite app_assoc. Qed.

Lemma bind_run_raise {A B} (m : Prog A) (k : A -> Prog B) (s s1 : State)
    (evs : list event) (e : exn) :
  m s = MkRun s1 evs (inl e) -> bind m k s = MkRun s1 evs (inl e).
Proof. intros H. unfold bind. rewrite H. reflexivity. Qed.

Lemma print_block_run cfg epoch i niter gs loss correct (s : State) :
  freq_plot cfg <> 0 ->
  print_block cfg epoch i niter gs loss correct s =
  MkRun s (if due_now i (freq_plot cfg) true
           then print_events cfg epoch i niter gs loss correct else [])
        (inr tt).
Proof.
  intros Hf. unfold print_block.
  rewrite (bind_run _ _ _ _ _ _ (due_run i _ true s Hf)).
  destruct (due_now i (freq_plot cfg) true); reflexivity.
Qed.

Lemma image_block_run cfg i gs (s : State) :
  freq_show cfg <> 0 ->
  image_block cfg i gs s =
  MkRun s (if due_now i (freq_show cfg) true then [Render; AddImage gs] else [])
        (inr tt).
Proof.
  intros Hf. unfold image_block.
  rewrite (bind_run _ _ _ _ _ _ (due_run i _ true s Hf)).
  destruct (due_now i (freq_show cfg) true); reflexivity.
Qed.

Lemma save_block_run cfg epoch i (s : State) :
  freq_save cfg <> 0 ->
  save_block cfg epoch i s =
  MkRun s (if due_now i (freq_save cfg) (negb (overfit cfg))
           then [UpdateCkpt epoch i] else [])
        (inr tt).
Proof.
  intros Hf. unfold save_block.
  rewrite (bind_run _ _ _ _ _ _ (due_run i _ _ s Hf)).
  destruct (due_now i (freq_save cfg) (negb (overfit cfg))); reflexivity.
Qed.

Lemma set_training_same (st : State) : set_training (training st) st = st.
Proof. destruct st; reflexivity. Qed.

Lemma net_eval_run (s : State) :
  net_eval s = MkRun (set_training false s) [NetEval] (inr tt).
Proof. reflexivity. Qed.

Lemma net_train_run (s : State) :
  net_train s = MkRun (set_training true s) [NetTrain] (inr tt).
Proof. reflexivity. Qed.

Lemma evaluation_taken_run cfg (s : State) :
  (net_eval ;; test cfg ;; net_train) s =
  MkRun (set_training (is_ok (snd (test_spec cfg (weights s)))) s)
        (evaluation_events cfg (weights s))
        (snd (test_spec cfg (weights s))).
Proof.
  unfold evaluation_events.
  rewrite (bind_run _ _ _ _ _ _ (net_eval_run s)). cbv beta.
  pose proof (test_run cfg (set_training false s)) as Ht.
  change (weights (set_training false s)) with (weights s) in Ht.
  destruct (snd (test_spec cfg (weights s))) as [e|[]].
  - rewrite (bind_run_raise _ _ _ _ _ _ Ht). cbn [post emitted result app is_ok].
    rewrite app_nil_r. destruct s; reflexivity.
  - rewrite (bind_run _ _ _ _ _ _ Ht). rewrite net_train_run.
    cbn [post emitted result app is_ok]. destruct s; reflexivity.
Qed.

Lemma evaluation_block_run cfg i (s : State) :
  freq_eval cfg <> 0 ->
  evaluation_block cfg i s =
  if due_now i (freq_eval cfg) (negb (overfit cfg))
  then MkRun (set_training (is_ok (snd (test_spec cfg (weights s)))) s)
             (evaluation_events cfg (weights s))
             (snd (test_spec cfg (weights s)))
  else MkRun s [] (inr tt).
Proof.
  intros Hf. unfold evaluation_block.
  rewrite (bind_run _ _ _ _ _ _ (due_run i _ _ s Hf)).
  destruct (due_now i (freq_eval cfg) (negb (overfit cfg))); [| reflexivity].
  unfold when. rewrite evaluation_taken_run. reflexivity.
Qed.

Lemma test_events_held_out (gs : list (list Sample)) :
  Forall held_out_event (test_events gs).
Proof.
  induction gs as [|g gs IH]; simpl; [constructor |].
  repeat constructor; assumption.
Qed.

Lemma test_spec_held_out cfg (w : Weights) :
  Forall held_out_event (fst (test_spec cfg w)).
Proof.
  unfold test_spec.
  destruct (decide (batch_size cfg <= 0)); [| destruct (decide _)];
    cbn [fst app]; repeat (apply Forall_cons_2; [exact I |]);
    try apply Forall_app_2; try apply test_events_held_out;
    repeat constructor.
Qed.

Lemma evaluation_events_held_out cfg (w : Weights) :
  Forall held_out_event (evaluation_events cfg w).
Proof.
  unfold evaluation_events. apply Forall_cons_2; [exact I |].
  apply Forall_app_2; [apply test_spec_held_out |].
  destruct (snd (test_spec cfg w)); repeat constructor.
Qed.

Lemma existsb_none {A} (c : A -> bool) (P : A -> Prop) (l : list A) :
  (forall x, P x -> c x = false) -> Forall P l -> existsb c l = false.
Proof.
  intros Hc Hl. induction Hl as [|x l Hx Hl IH]; simpl; [reflexivity |].
  now rewrite (Hc x Hx), IH.
Qed.

Lemma held_out_not_scalar_log ev : held_out_event ev -> is_scalar_log ev = false.
Proof. destruct ev as [| | | | | | | | |[]| | | | | | | | | | | | |]; simpl; tauto. Qed.

Lemma held_out_not_render ev : held_out_event ev -> is_render ev = false.
Proof. destruct ev; simpl; tauto. Qed.

Lemma held_out_not_save ev : held_out_event ev -> is_save ev = false.
Proof. destruct ev; simpl; tauto. Qed.

Lemma side_effects_run cfg epoch i niter gs loss correct (s : State) :
  freq_plot cfg <> 0 -> freq_show cfg <> 0 -> freq_save cfg <> 0 ->
  side_effects cfg epoch i niter gs loss correct s =
  MkRun (post (evaluation_block cfg i s))
        ((if due_now i (freq_plot cfg) true
          then print_events cfg epoch i niter gs loss correct else [])
         ++ (if due_now i (freq_show cfg) true then [Render; AddImage gs] else [])
         ++ (if due_now i (freq_save cfg) (negb (overfit cfg))
             then [UpdateCkpt epoch i] else [])
         ++ emitted (evaluation_block cfg i s))
        (result (evaluation_block cfg i s)).
Proof.
  intros Hp Hs Hv. unfold side_effects.
  rewrite (bind_run _ _ _ _ _ _ (print_block_run _ _ _ _ _ _ _ s Hp)). cbv beta.
  rewrite (bind_run _ _ _ _ _ _ (image_block_run _ _ _ s Hs)).
  rewrite (bind_run _ _ _ _ _ _ (save_block_run _ _ _ s Hv)).
  reflexivity.
Qed.

(** The four periodic side effects of lines 148-176, on any state and
    for any loss and accuracy. *)
Lemma side_effects_block_cadence cfg epoch i niter gs loss correct (st : State) :
  freq_plot cfg <> 0 -> freq_show cfg <> 0 ->
  freq_save cfg <> 0 -> freq_eval cfg <> 0 ->
  let evs := emitted (side_effects cfg epoch i niter gs loss correct st) in
  (existsb is_scalar_log evs = true <-> positive_multiple i (freq_plot cfg)) /\
  (existsb is_render evs = true <-> positive_multiple i (freq_show cfg)) /\
  (existsb is_save evs = true <->
     positive_multiple i (freq_save cfg) /\ overfit cfg = false) /\
  (existsb is_eval evs = true <->
     positive_multiple i (freq_eval cfg) /\ overfit cfg = false) /\
  (i = 0 -> evs = []).
Proof.
  intros Hp Hs Hv He evs. subst evs.
  rewrite side_effects_run by assumption.
  rewrite evaluation_block_run by assumption.
  cbn [emitted].
  pose proof (due_now_spec i _ true Hp) as Dp.
  pose proof (due_now_spec i _ true Hs) as Ds.
  pose proof (due_now_spec i _ (negb (overfit cfg)) Hv) as Dv.
  pose proof (due_now_spec i _ (negb (overfit cfg)) He) as De.
  rewrite negb_true_iff in Dv, De.
  pose proof (existsb_none is_scalar_log _ _ held_out_not_scalar_log
                (evaluation_events_held_out cfg (weights st))) as Xl.
  pose proof (existsb_none is_render _ _ held_out_not_render
                (evaluation_events_held_out cfg (weights st))) as Xr.
  pose proof (existsb_none is_save _ _ held_out_not_save
                (evaluation_events_held_out cfg (weights st))) as Xs.
  assert (Xe : existsb is_eval (evaluation_events cfg (weights st)) = true)
    by reflexivity.
  assert (Hz : i = 0 -> forall f x, due_now i f x = false).
  { intros -> f x. unfold due_now.
    rewrite (bool_decide_eq_false_2 (0 < 0)) by lia.
    now rewrite andb_false_r. }
  destruct (due_now i (freq_plot cfg) true) eqn:Bp;
    destruct (due_now i (freq_show cfg) true) eqn:Bs;
    destruct (due_now i (freq_save cfg) (negb (overfit cfg))) eqn:Bv;
    destruct (due_now i (freq_eval cfg) (negb (overfit cfg))) eqn:Be;
    cbn [emitted app print_events existsb is_scalar_log is_render is_save
           is_eval orb];
    rewrite ?existsb_app, ?Xl, ?Xr, ?Xs, ?Xe; cbn [existsb orb];
    (split; [| split; [| split; [| split]]];
     [ clear -Dp; intuition congruence
     | clear -Ds; intuition congruence
     | clear -Dv; intuition congruence
     | clear -De; intuition congruence
     | intros H0; specialize (Hz H0); first [reflexivity | congruence] ]).
Qed.

(** ** What a computation leaves of the state, and what it emits *)

Lemma mode_only_refl (s : State) : mode_only s s.
Proof. exists (training s). symmetry. apply set_training_same. Qed.

Lemma mode_only_trans (s1 s2 s3 : State) :
  mode_only s1 s2 -> mode_only s2 s3 -> mode_only s1 s3.
Proof. intros [b ->] [c ->]. exists c. reflexivity. Qed.

Lemma preserves_ret {A} (a : A) : preserves (ret a).
Proof. intros s. apply mode_only_refl. Qed.

Lemma preserves_raise {A} (e : exn) : preserves (raise (A := A) e).
Proof. intros s. apply mode_only_refl. Qed.

Lemma preserves_emit (ev : event) : preserves (emit ev).
Proof. intros s. apply mode_only_refl. Qed.

Lemma preserves_lift {A} (x : exn + A) : preserves (lift x).
Proof. destruct x; [apply preserves_raise | apply preserves_ret]. Qed.

Lemma preserves_bind {A B} (m : Prog A) (k : A -> Prog B) :
  preserves m -> (forall a, preserves (k a)) -> preserves (bind m k).
Proof.
  intros Hm Hk s. unfold bind.
  destruct (result (m s)) as [e|a]; cbn [post]; [apply Hm |].
  eapply mode_only_trans; [apply Hm | apply Hk].
Qed.

Lemma preserves_when (b : bool) (m : Prog unit) :
  preserves m -> preserves (when b m).
Proof. destruct b; [trivial | intros _; apply preserves_ret]. Qed.

Lemma emits_ret {A} P (a : A) : emits P (ret a).
Proof. intros s. constructor. Qed.

Lemma emits_raise {A} P (e : exn) : emits P (raise (A := A) e).
Proof. intros s. constructor. Qed.

Lemma emits_emit P (ev : event) : P ev -> emits P (emit ev).
Proof. intros H s. repeat constructor. exact H. Qed.

Lemma emits_lift {A} P (x : exn + A) : emits P (lift x).
Proof. destruct x; [apply emits_raise | apply emits_ret]. Qed.

Lemma emits_bind {A B} P (m : Prog A) (k : A -> Prog B) :
  emits P m -> (forall a, emits P (k a)) -> emits P (bind m k).
Proof.
  intros Hm Hk s. unfold bind.
  destruct (result (m s)) as [e|a]; cbn [emitted]; [apply Hm |].
  apply Forall_app_2; [apply Hm | apply Hk].
Qed.

Lemma emits_when P (b : bool) (m : Prog unit) : emits P m -> emits P (when b m).
Proof. destruct b; [trivial | intros _; apply emits_ret]. Qed.

Lemma due_preserves i f x : preserves (due i f x).
Proof.
  apply preserves_bind; [apply preserves_lift | intros a; apply preserves_ret].
Qed.

Lemma due_emits P i f x : emits P (due i f x).
Proof.
  apply emits_bind; [apply emits_lift | intros a; apply emits_ret].
Qed.

Lemma evaluation_taken_preserves cfg :
  preserves (net_eval ;; test cfg ;; net_train).
Proof. intros s. rewrite evaluation_taken_run. eexists. reflexivity. Qed.

Lemma evaluation_taken_emits cfg :
  emits periodic_event (net_eval ;; test cfg ;; net_train).
Proof.
  intros s. rewrite evaluation_taken_run. cbn [emitted].
  eapply Forall_impl; [apply evaluation_events_held_out |].
  intros ev. destruct ev as [| | | | | | | | |[]| | | | | | | | | | | | |];
    simpl; tauto.
Qed.

Ltac frame_tac :=
  repeat first
    [ apply due_preserves
    | apply evaluation_taken_preserves
    | apply preserves_when
    | apply preserves_emit
    | apply preserves_bind; [| intros ? ] ].

Ltac emits_tac :=
  repeat first
    [ apply due_emits
    | apply evaluation_taken_emits
    | apply emits_when
    | apply emits_emit; exact I
    | apply emits_bind; [| intros ? ] ].

Lemma side_effects_preserves cfg epoch i niter gs loss correct :
  preserves (side_effects cfg epoch i niter gs loss correct).
Proof.
  unfold side_effects, print_block, image_block, save_block, evaluation_block.
  frame_tac.
Qed.

Lemma side_effects_emits cfg epoch i niter gs loss correct :
  emits periodic_event (side_effects cfg epoch i niter gs loss correct).
Proof.
  unfold side_effects, print_block, image_block, save_block, evaluation_block.
  emits_tac.
Qed.

(** ** One iteration *)

Lemma next_batch_run (st : State) (g : list Sample) (rest : list (list Sample)) :
  loader st = g :: rest ->
  next_batch st = MkRun (set_loader rest st) [NextBatch "train" g] (inr (collate g)).
Proof.
  intros Hl. unfold next_batch, bind, get. cbn [post emitted result app].
  rewrite Hl. reflexivity.
Qed.

Lemma next_batch_empty (st : State) :
  loader st = [] -> next_batch st = MkRun st [] (inl StopIteration).
Proof.
  intros Hl. unfold next_batch, bind, get. cbn [post emitted result app].
  rewrite Hl. reflexivity.
Qed.

Lemma periodic_not_backward ev : periodic_event ev -> is_backward ev = false.
Proof. destruct ev as [| | | | | | | | |[]| | | | | | | | | | | | |]; simpl; tauto. Qed.

Lemma periodic_not_scheduler ev : periodic_event ev -> is_scheduler_step ev = false.
Proof. destruct ev as [| | | | | | | | |[]| | | | | | | | | | | | |]; simpl; tauto. Qed.

Lemma periodic_not_fetched ev : periodic_event ev -> fetched_of ev = None.
Proof.
  destruct ev as [| | | | | | | | |[]| | | | | | | | | | | | |]; simpl; try tauto.
  intros ->. reflexivity.
Qed.

Lemma filter_none {A} (c : A -> bool) (P : A -> Prop) (l : list A) :
  (forall x, P x -> c x = false) -> Forall P l -> List.filter c l = [].
Proof.
  intros Hc Hl. induction Hl as [|x l Hx Hl IH]; simpl; [reflexivity |].
  now rewrite (Hc x Hx).
Qed.

Lemma fetched_none (P : event -> Prop) (l : list event) :
  (forall x, P x -> fetched_of x = None) -> Forall P l -> fetched l = [].
Proof.
  intros Hc Hl. unfold fetched.
  induction Hl as [|x l Hx Hl IH]; simpl; [reflexivity |].
  now rewrite (Hc x Hx).
Qed.

Lemma call_net_run (bx bt : list float) (s : State) :
  call_net bx bt s =
  MkRun s [Forward (grad_enabled s)]
    (inr {| data := net_forward (weights s) (training s) bx bt;
            node := if grad_enabled s then NetBackward bx bt else Leaf |}).
Proof. reflexivity. Qed.

Lemma zero_grad_run (s : State) :
  zero_grad s = MkRun (set_grads None s) [ZeroGrad] (inr tt).
Proof. reflexivity. Qed.

Lemma backward_run (d : list float) (n : grad_fn) (t : list float) (s : State) :
  backward {| data := d; node := MseLossBackward n t |} s =
  MkRun (set_grads (Some match grads s with
                         | None => autograd (weights s) (MseLossBackward n t)
                         | Some g0 => grad_acc g0 (autograd (weights s) (MseLossBackward n t))
                         end) s)
        [Backward {| data := d; node := MseLossBackward n t |}] (inr tt).
Proof. reflexivity. Qed.

Lemma backward_leaf (d : list float) (s : State) :
  backward {| data := d; node := Leaf |} s =
  MkRun s [] (inl (OtherError "RuntimeError")).
Proof. reflexivity. Qed.

Lemma optimizer_step_run (s : State) (g : Grad) :
  grads s = Some g ->
  optimizer_step_ s =
  MkRun (set_net (snd (optimizer_step (sched_steps s) (opt_state s) (weights s) g))
           (set_optimizer
              (fst (optimizer_step (sched_steps s) (opt_state s) (weights s) g)) s))
        [OptimizerStep] (inr tt).
Proof.
  intros Hg. unfold optimizer_step_, bind, emit, get.
  cbn [post emitted result app]. rewrite Hg.
  destruct (optimizer_step (sched_steps s) (opt_state s) (weights s) g) as [o w].
  reflexivity.
Qed.

(** With a batch at hand and grad mode on, the iteration performs the
    gradient step and then the periodic side effects, whatever is done to
    the output after the loss has been computed. *)
Lemma iteration_body_with_run bin cfg epoch niter i (st : State) g rest :
  loader st = g :: rest -> grad_enabled st = true ->
  iteration_body_with bin cfg epoch niter i st =
  after (step_events st g)
    (side_effects cfg epoch i niter (epoch * niter + i) (train_loss st g)
       (accuracy (bin (train_output st g)) (targets (collate g)))
       (after_step st g rest)).
Proof.
  intros Hl Hg. unfold iteration_body_with.
  rewrite (bind_run _ _ _ _ _ _ (next_batch_run st g rest Hl)). cbv beta.
  rewrite (bind_run _ _ _ _ _ _ (call_net_run _ _ (set_loader rest st))). cbv beta.
  change (grad_enabled (set_loader rest st)) with (grad_enabled st).
  change (weights (set_loader rest st)) with (weights st).
  change (training (set_loader rest st)) with (training st).
  rewrite Hg. fold (train_output st g). fold (train_loss st g).
  rewrite (bind_run _ _ _ _ _ _ (zero_grad_run (set_loader rest st))). cbv beta.
  rewrite (bind_run (backward (train_loss st g)) _ _ _ _ _
             (backward_run [mse (data (train_output st g)) (targets (collate g))]
                (NetBackward (data_BX (collate g)) (data_BT (collate g)))
                (targets (collate g)) _)). cbv beta.
  match goal with
  | |- context [bind optimizer_step_ _ ?s1] =>
      rewrite (bind_run _ _ _ _ _ _
                 (optimizer_step_run s1 (step_gradient st g) eq_refl))
  end. cbv beta.
  rewrite !after_after. reflexivity.
Qed.

Lemma iteration_body_is_with cfg epoch niter i :
  iteration_body cfg epoch niter i = iteration_body_with binarize cfg epoch niter i.
Proof. reflexivity. Qed.

Lemma iteration_gradient_step bin cfg epoch niter i (st : State) g rest :
  loader st = g :: rest -> grad_enabled st = true ->
  let r := iteration_body_with bin cfg epoch niter i st in
  List.filter is_backward (emitted r) = [Backward (train_loss st g)] /\
  mode_only (after_step st g rest) (post r).
Proof.
  intros Hl Hg r. subst r.
  rewrite (iteration_body_with_run bin _ _ _ _ _ _ _ Hl Hg).
  unfold after. cbn [post emitted]. split.
  - rewrite List.filter_app.
    rewrite (filter_none is_backward _ _ periodic_not_backward
               (side_effects_emits _ _ _ _ _ _ _ _)).
    reflexivity.
  - apply side_effects_preserves.
Qed.

(** C1: in an iteration with index [i] of the training loop, metrics
    are logged iff [i] is a positive multiple of [freq_plot], an image is
    rendered iff [i] is a positive multiple of [freq_show], a checkpoint
    is saved iff [i] is a positive multiple of [freq_save] and [overfit]
    is off, and the held-out pass runs iff [i] is a positive multiple of
    [freq_eval] and [overfit] is off; at [i = 0] none of the four
    happens.  This holds of the side-effect block of lines 148-176 on any
    state, and of the whole iteration whenever it has a batch to fetch
    and runs in grad mode. *)
Theorem side_effect_cadence cfg epoch niter i :
  freq_plot cfg <> 0 -> freq_show cfg <> 0 ->
  freq_save cfg <> 0 -> freq_eval cfg <> 0 ->
  let cadence := fun evs : list event =>
    (existsb is_scalar_log evs = true <-> positive_multiple i (freq_plot cfg)) /\
    (existsb is_render evs = true <-> positive_multiple i (freq_show cfg)) /\
    (existsb is_save evs = true <->
       positive_multiple i (freq_save cfg) /\ overfit cfg = false) /\
    (existsb is_eval evs = true <->
       positive_multiple i (freq_eval cfg) /\ overfit cfg = false) /\
    (i = 0 -> existsb is_scalar_log evs = false /\ existsb is_render evs = false /\
              existsb is_save evs = false /\ existsb is_eval evs = false) in
  (forall gs loss correct (st : State),
     cadence (emitted (side_effects cfg epoch i niter gs loss correct st)) /\
     (i = 0 -> emitted (side_effects cfg epoch i niter gs loss correct st) = [])) /\
  (forall (st : State) g rest,
     loader st = g :: rest -> grad_enabled st = true ->
     cadence (emitted (iteration_body cfg epoch niter i st))).
Proof.
  intros Hp Hs Hv He cadence.
  assert (Hblock : forall gs loss correct (st : State),
            cadence (emitted (side_effects cfg epoch i niter gs loss correct st)) /\
            (i = 0 -> emitted (side_effects cfg epoch i niter gs loss correct st) = [])).
  { intros gs loss correct st.
    destruct (side_effects_block_cadence cfg epoch i niter gs loss correct st Hp Hs Hv He)
      as (C1 & C2 & C3 & C4 & C5).
    split; [| exact C5].
    unfold cadence. repeat (split; [assumption |]).
    intros H0. rewrite (C5 H0). repeat split. }
  split; [exact Hblock |].
  intros st g rest Hl Hg.
  rewrite iteration_body_is_with.
  rewrite (iteration_body_with_run binarize _ _ _ _ _ _ _ Hl Hg).
  unfold after. cbn [emitted].
  destruct (Hblock (epoch * niter + i) (train_loss st g)
              (accuracy (binarize (train_output st g)) (targets (collate g)))
              (after_step st g rest)) as [Hc _].
  unfold cadence in *. unfold step_events.
  rewrite !existsb_app.
  cbn [existsb is_scalar_log is_render is_save is_eval orb].
  exact Hc.
Qed.

(** C4: in an iteration that has a batch and runs in grad mode, the one
    tensor handed to [backward] is the mean-squared error of the
    network's raw output against the target (its graph holds the network
    node and no [masked_fill]); gradient and parameters after the
    iteration are those of that loss.  What is done to the output after
    the loss has been taken (the binarization, or any other function in
    its place) changes neither the backpropagated tensor nor gradient,
    parameters or optimizer state. *)
Theorem loss_is_mse_of_raw_output cfg epoch niter i (st : State) g rest :
  loader st = g :: rest -> grad_enabled st = true ->
  let b := collate g in
  let raw := net_forward (weights st) (training st) (data_BX b) (data_BT b) in
  let loss :=
    {| data := [mse raw (targets b)];
       node := MseLossBackward (NetBackward (data_BX b) (data_BT b)) (targets b) |} in
  let gr := autograd (weights st) (node loss) in
  let r := iteration_body cfg epoch niter i st in
  List.filter is_backward (emitted r) = [Backward loss] /\
  grads (post r) = Some gr /\
  weights (post r) =
    snd (optimizer_step (sched_steps st) (opt_state st) (weights st) gr) /\
  forall bin,
    let r' := iteration_body_with bin cfg epoch niter i st in
    List.filter is_backward (emitted r') = [Backward loss] /\
    grads (post r') = grads (post r) /\
    weights (post r') = weights (post r) /\
    opt_state (post r') = opt_state (post r).
Proof.
  intros Hl Hg b raw loss gr r.
  assert (Hall : forall bin,
    let r' := iteration_body_with bin cfg epoch niter i st in
    List.filter is_backward (emitted r') = [Backward loss] /\
    grads (post r') = Some gr /\
    weights (post r') =
      snd (optimizer_step (sched_steps st) (opt_state st) (weights st) gr) /\
    opt_state (post r') =
      fst (optimizer_step (sched_steps st) (opt_state st) (weights st) gr)).
  { intros bin r'.
    destruct (iteration_gradient_step bin cfg epoch niter i st g rest Hl Hg)
      as [Hb [m Hm]].
    fold r' in Hb, Hm.
    split; [exact Hb |].
    split; [| split]; rewrite Hm; reflexivity. }
  subst r. rewrite iteration_body_is_with.
  destruct (Hall binarize) as (H1 & H2 & H3 & H4).
  split; [exact H1 |]. split; [exact H2 |]. split; [exact H3 |].
  intros bin r'. destruct (Hall bin) as (K1 & K2 & K3 & K4). fold r' in K1, K2, K3, K4.
  split; [exact K1 |].
  split; [| split].
  - now rewrite K2, H2.
  - now rewrite K3, H3.
  - now rewrite K4, H4.
Qed.

(** ** Setting up: data, network, trainer, checkpoint *)

Lemma DataLoader_run (split : string) (bs nw : Z) (s : State) :
  0 < bs -> 0 <= nw ->
  DataLoader split bs nw s = MkRun s [NewLoader split] (inr tt).
Proof.
  intros Hb Hn. unfold DataLoader.
  destruct (decide (nw < 0)); [lia |].
  destruct (decide (bs <= 0)); [lia | reflexivity].
Qed.

Lemma load_or_report_absent fs cfg (s : State) :
  fs !! ckpt_path cfg = None ->
  load_or_report fs cfg s =
  MkRun s [Info (MsgCkptNotFound (ckpt_path cfg))] (inr tt).
Proof.
  intros Hf. unfold load_or_report, path_exists.
  rewrite Hf, bool_decide_eq_false_2; [reflexivity |].
  intros [x Hx]. discriminate.
Qed.

Lemma load_or_report_present fs cfg (s : State) blob :
  fs !! ckpt_path cfg = Some blob ->
  load_or_report fs cfg s = load_ckpt fs (ckpt_path cfg) s.
Proof.
  intros Hf. unfold load_or_report, path_exists.
  rewrite Hf, bool_decide_eq_true_2; [reflexivity | eauto].
Qed.

Lemma load_ckpt_run fs path (s : State) blob w o e i :
  fs !! path = Some blob -> unpickle blob = inr (w, o, e, i) ->
  load_ckpt fs path s =
  MkRun (set_cursor e i (set_optimizer o (set_net w s))) [LoadCkpt path] (inr tt).
Proof.
  intros Hf Hu. unfold load_ckpt. rewrite Hf, Hu. reflexivity.
Qed.

Lemma setup_run fs cfg (st : State) :
  0 < batch_size cfg -> 0 <= num_threads cfg ->
  setup fs cfg st =
  after [NewDataset "train"; NewLoader "train"; NewNet; NewTrainer]
    ((load_or_report fs cfg ;;
      emit (data_size_message cfg) ;;
      st' <- get ;;
      modify (set_rng (2 + rng st')%nat) ;;
      emit AddGraph ;;
      ret (AMASSdataset cfg "train")) (constructed cfg st)).
Proof.
  intros Hb Hn. unfold setup.
  rewrite (bind_run (emit (NewDataset "train")) _ st st [NewDataset "train"] tt eq_refl).
  rewrite (bind_run _ _ _ _ _ _ (DataLoader_run "train" _ _ st Hb Hn)).
  cbv beta. rewrite after_after. reflexivity.
Qed.

(** C8: with a loadable training set-up (positive batch size, no
    negative worker count), a checkpoint path that does not exist does
    not stop [train]: set-up completes, its events contain the "not
    found" message and no load, the state is the freshly constructed one
    (cursor 0/0, initial parameters and optimizer), and the epochs run
    from epoch 0, iteration 0.  When the file exists, the checkpoint is
    loaded during set-up, before the first epoch, and the epochs start at
    the loaded cursor. *)
Theorem missing_checkpoint_is_not_fatal fs cfg (st : State) :
  0 < batch_size cfg -> 0 <= num_threads cfg ->
  let ds := AMASSdataset cfg "train" in
  let r := setup fs cfg st in
  (fs !! ckpt_path cfg = None ->
     result r = inr ds /\
     emitted r = [NewDataset "train"; NewLoader "train"; NewNet; NewTrainer;
                  Info (MsgCkptNotFound (ckpt_path cfg));
                  data_size_message cfg; AddGraph] /\
     post r = set_rng (2 + rng (constructed cfg st))%nat (constructed cfg st) /\
     cur_epoch (post r) = 0 /\ cur_iteration (post r) = 0 /\
     train fs cfg st =
       after (emitted r) (epochs cfg ds (range 0 (num_epoch cfg)) 0 (post r))) /\
  (forall blob w o e i,
     fs !! ckpt_path cfg = Some blob -> unpickle blob = inr (w, o, e, i) ->
     result r = inr ds /\
     emitted r = [NewDataset "train"; NewLoader "train"; NewNet; NewTrainer;
                  LoadCkpt (ckpt_path cfg); data_size_message cfg; AddGraph] /\
     cur_epoch (post r) = e /\ cur_iteration (post r) = i /\
     weights (post r) = w /\ opt_state (post r) = o /\
     train fs cfg st =
       after (emitted r) (epochs cfg ds (range e (num_epoch cfg)) i (post r))).
Proof.
  intros Hb Hn ds r. split.
  - intros Hf.
    assert (Hr : r = MkRun (set_rng (2 + rng (constructed cfg st))%nat (constructed cfg st))
                   [NewDataset "train"; NewLoader "train"; NewNet; NewTrainer;
                    Info (MsgCkptNotFound (ckpt_path cfg));
                    data_size_message cfg; AddGraph] (inr ds)).
    { subst r. rewrite (setup_run fs cfg st Hb Hn).
      rewrite (bind_run _ _ _ _ _ _ (load_or_report_absent fs cfg _ Hf)).
      reflexivity. }
    unfold train. fold r. rewrite (bind_run _ _ _ _ _ _ Hr). rewrite Hr.
    cbn [post emitted result]. repeat split.
  - intros blob w o e i Hf Hu.
    assert (Hr : r = MkRun (set_rng (2 + rng (constructed cfg st))%nat
                          (set_cursor e i (set_optimizer o (set_net w (constructed cfg st)))))
                   [NewDataset "train"; NewLoader "train"; NewNet; NewTrainer;
                    LoadCkpt (ckpt_path cfg); data_size_message cfg; AddGraph]
                   (inr ds)).
    { subst r. rewrite (setup_run fs cfg st Hb Hn).
      unfold bind at 1. rewrite (load_or_report_present fs cfg _ blob Hf).
      rewrite (load_ckpt_run fs _ _ blob w o e i Hf Hu).
      reflexivity. }
    unfold train. fold r. rewrite (bind_run _ _ _ _ _ _ Hr). rewrite Hr.
    cbn [post emitted result]. repeat split.
Qed.

(** ** The batch sampler *)

Lemma div_step (n b : nat) :
  (0 < b)%nat -> (b <= n)%nat -> (n / b = S ((n - b) / b))%nat.
Proof.
  intros Hb Hn.
  replace n with ((n - b) + 1 * b)%nat at 1 by lia.
  rewrite Nat.div_add by lia. lia.
Qed.

Lemma batches_aux_concat (fuel b : nat) (l : list Sample) :
  (0 < b)%nat -> (length l <= fuel)%nat ->
  concat (batches_aux fuel b true l) = take (b * (length l / b)) l.
Proof.
  intros Hb. revert l.
  induction fuel as [|fuel IH]; intros l Hl.
  - destruct l; simpl in *; [now rewrite take_nil | lia].
  - destruct l as [|x l]; [now rewrite take_nil |].
    cbn [batches_aux].
    destruct (b <=? length (x :: l))%nat eqn:Hle.
    + apply Nat.leb_le in Hle. cbn [concat].
      rewrite IH by (rewrite length_drop; lia).
      rewrite length_drop, take_take_drop.
      rewrite (div_step (length (x :: l)) b Hb Hle).
      f_equal. lia.
    + apply Nat.leb_gt in Hle.
      rewrite (Nat.div_small _ _ Hle), Nat.mul_0_r. reflexivity.
Qed.

Lemma batches_aux_length (fuel b : nat) (l : list Sample) :
  (0 < b)%nat -> (length l <= fuel)%nat ->
  length (batches_aux fuel b true l) = (length l / b)%nat.
Proof.
  intros Hb. revert l.
  induction fuel as [|fuel IH]; intros l Hl.
  - destruct l; simpl in *; [now rewrite Nat.Div0.div_0_l | lia].
  - destruct l as [|x l]; [simpl; now rewrite Nat.Div0.div_0_l |].
    cbn [batches_aux].
    destruct (b <=? length (x :: l))%nat eqn:Hle.
    + apply Nat.leb_le in Hle. cbn [length].
      rewrite IH by (rewrite length_drop; lia).
      rewrite length_drop.
      change (S (length l)) with (length (x :: l)).
      now rewrite (div_step (length (x :: l)) b Hb Hle).
    + apply Nat.leb_gt in Hle.
      now rewrite (Nat.div_small _ _ Hle).
Qed.

Lemma batches_concat (b : nat) (l : list Sample) :
  (0 < b)%nat ->
  concat (batches b true l) = take (b * (length l / b)) l.
Proof. intros Hb. apply batches_aux_concat; [exact Hb | lia]. Qed.

Lemma batches_length (b : nat) (l : list Sample) :
  (0 < b)%nat -> length (batches b true l) = (length l / b)%nat.
Proof. intros Hb. apply batches_aux_length; [exact Hb | lia]. Qed.

Lemma loader_len_batches (bs : Z) (l : list Sample) :
  0 < bs ->
  loader_len (Z.of_nat (length l)) bs true =
  Z.of_nat (length (batches (Z.to_nat bs) true l)).
Proof.
  intros Hb. rewrite batches_length by lia. unfold loader_len.
  rewrite Nat2Z.inj_div, Z2Nat.id by lia. reflexivity.
Qed.

Lemma range_length (a b : Z) : length (range a b) = Z.to_nat (b - a).
Proof. unfold range. now rewrite length_map, length_seq. Qed.

(** ** The loops *)

Lemma test_spec_ok cfg (w : Weights) :
  0 < batch_size cfg -> AMASSdataset cfg "test" <> [] ->
  snd (test_spec cfg w) = inr tt.
Proof.
  intros Hb Hd. unfold test_spec.
  destruct (decide (batch_size cfg <= 0)); [lia |].
  destruct (decide (Z.of_nat (length (AMASSdataset cfg "test")) = 0)) as [Hn|Hn];
    [| reflexivity].
  destruct (AMASSdataset cfg "test"); [contradiction | simpl in Hn; lia].
Qed.

Lemma side_effects_ok cfg epoch i niter gs loss correct (s : State) :
  runnable cfg ->
  result (side_effects cfg epoch i niter gs loss correct s) = inr tt.
Proof.
  intros (Hb & Hn & Hp & Hs & Hv & He & Hd).
  rewrite side_effects_run by assumption. cbn [result].
  rewrite evaluation_block_run by assumption.
  destruct (due_now i (freq_eval cfg) (negb (overfit cfg))); cbn [result];
    [now apply test_spec_ok | reflexivity].
Qed.

Lemma iteration_ok cfg epoch niter i (st : State) g rest :
  runnable cfg -> loader st = g :: rest -> grad_enabled st = true ->
  let r := iteration_body cfg epoch niter i st in
  result r = inr tt /\
  mode_only (after_step st g rest) (post r) /\
  fetched (emitted r) = [g] /\
  List.filter is_scheduler_step (emitted r) = [].
Proof.
  intros Hrun Hl Hg r. subst r.
  rewrite iteration_body_is_with.
  rewrite (iteration_body_with_run binarize _ _ _ _ _ _ _ Hl Hg).
  unfold after. cbn [post emitted result].
  split; [now apply side_effects_ok |].
  split; [apply side_effects_preserves |].
  split.
  - unfold fetched. rewrite omap_app.
    fold (fetched (emitted (side_effects cfg epoch i niter (epoch * niter + i)
            (train_loss st g)
            (accuracy (binarize (train_output st g)) (targets (collate g)))
            (after_step st g rest)))).
    rewrite (fetched_none _ _ periodic_not_fetched (side_effects_emits _ _ _ _ _ _ _ _)).
    reflexivity.
  - rewrite List.filter_app.
    rewrite (filter_none is_scheduler_step _ _ periodic_not_scheduler
               (side_effects_emits _ _ _ _ _ _ _ _)).
    reflexivity.
Qed.

Lemma iterations_run cfg epoch niter :
  runnable cfg ->
  forall (idx : list Z) (st : State),
  (length idx <= length (loader st))%nat -> grad_enabled st = true ->
  let r := for_each idx (iteration_body cfg epoch niter) st in
  result r = inr tt /\
  loader (post r) = drop (length idx) (loader st) /\
  grad_enabled (post r) = true /\
  sched_steps (post r) = sched_steps st /\
  rng (post r) = rng st /\
  fetched (emitted r) = take (length idx) (loader st) /\
  List.filter is_scheduler_step (emitted r) = [].
Proof.
  intros Hrun idx.
  induction idx as [|i idx IH]; intros st Hlen Hg r; subst r.
  - cbn [for_each ret post emitted result length].
    rewrite drop_0, take_0. repeat split; assumption.
  - destruct (loader st) as [|g rest] eqn:Hl; [simpl in Hlen; lia |].
    destruct (iteration_ok cfg epoch niter i st g rest Hrun Hl Hg)
      as (Hr & [m Hm] & Hf & Hs).
    cbn [for_each].
    rewrite (bind_inr _ _ _ _ Hr). cbn [post emitted result].
    set (s1 := post (iteration_body cfg epoch niter i st)) in *.
    assert (Hl1 : loader s1 = rest) by now rewrite Hm.
    assert (Hg1 : grad_enabled s1 = true) by now rewrite Hm.
    assert (Hlen1 : (length idx <= length (loader s1))%nat)
      by (rewrite Hl1; simpl in Hlen; lia).
    destruct (IH s1 Hlen1 Hg1) as (Kr & Kl & Kg & Ks & Kn & Kf & Kc).
    split; [exact Kr |]. split; [now rewrite Kl, Hl1 |].
    split; [exact Kg |]. split; [now rewrite Ks, Hm |].
    split; [now rewrite Kn, Hm |].
    split.
    + unfold fetched in *. rewrite omap_app, Kf, Hf, Hl1. reflexivity.
    + now rewrite List.filter_app, Hs, Kc.
Qed.

Lemma iter_train_run (ds : list Sample) (bs : Z) (s : State) :
  iter_train ds bs s =
  MkRun (set_rng (S (rng s))
           (set_loader (batches (Z.to_nat bs) true (shuffle (rng s) ds)) s))
        [] (inr tt).
Proof. reflexivity. Qed.

Lemma epoch_body_run cfg ds epoch start_iter (st : State) :
  runnable cfg -> grad_enabled st = true -> 0 <= start_iter ->
  let loop := for_each (range start_iter (niter_of cfg ds))
                (iteration_body cfg epoch (niter_of cfg ds)) (epoch_start cfg ds st) in
  epoch_body cfg ds epoch start_iter st =
    MkRun (set_sched_steps (S (sched_steps (post loop))) (post loop))
          ([NetTrain; NewLoader "train"] ++ emitted loop ++ [SchedulerStep])
          (inr 0) /\
  grad_enabled (post loop) = true /\
  sched_steps (post loop) = sched_steps st /\
  rng (post loop) = S (rng st) /\
  fetched (emitted loop) =
    take (Z.to_nat (niter_of cfg ds - start_iter)) (epoch_loader cfg ds st) /\
  List.filter is_scheduler_step (emitted loop) = [].
Proof.
  intros Hrun Hg Hs loop.
  pose proof Hrun as (Hb & Hn & _).
  assert (Hlen : (length (range start_iter (niter_of cfg ds))
                  <= length (loader (epoch_start cfg ds st)))%nat).
  { rewrite range_length. cbn [epoch_start loader set_rng set_loader].
    unfold niter_of, epoch_loader.
    rewrite <- (Permutation_length (shuffle_perm (rng st) ds)).
    rewrite (loader_len_batches _ (shuffle (rng st) ds) Hb).
    lia. }
  destruct (iterations_run cfg epoch (niter_of cfg ds) Hrun _ _ Hlen Hg)
    as (Kr & Kl & Kg & Ks & Kn & Kf & Kc).
  fold loop in Kr, Kl, Kg, Ks, Kn, Kf, Kc.
  rewrite range_length in Kf.
  repeat split; try assumption.
  unfold epoch_body.
  rewrite (bind_run _ _ _ _ _ _ (net_train_run st)).
  rewrite (bind_run _ _ _ _ _ _ (DataLoader_run "train" _ _ (set_training true st) Hb Hn)).
  rewrite (bind_run _ _ _ _ _ _ (iter_train_run ds _ (set_training true st))).
  cbv beta. rewrite !after_after.
  change (set_rng _ (set_loader _ (set_training true st))) with (epoch_start cfg ds st).
  fold (niter_of cfg ds). fold loop.
  rewrite (bind_inr _ _ _ _ Kr). fold loop.
  unfold after. cbn [post emitted result].
  unfold scheduler_step, bind, get, emit, modify, ret. cbn [post emitted result app].
  reflexivity.
Qed.

Lemma epoch_body_facts cfg ds epoch start_iter (st : State) :
  runnable cfg -> grad_enabled st = true -> 0 <= start_iter ->
  let r := epoch_body cfg ds epoch start_iter st in
  result r = inr 0 /\
  grad_enabled (post r) = true /\
  sched_steps (post r) = S (sched_steps st) /\
  rng (post r) = S (rng st) /\
  fetched (emitted r) =
    take (Z.to_nat (niter_of cfg ds - start_iter)) (epoch_loader cfg ds st) /\
  List.filter is_scheduler_step (emitted r) = [SchedulerStep] /\
  last (emitted r) = Some SchedulerStep.
Proof.
  intros Hrun Hg Hs r. subst r.
  destruct (epoch_body_run cfg ds epoch start_iter st Hrun Hg Hs)
    as (Hr & Kg & Ks & Kn & Kf & Kc).
  rewrite Hr. cbn [post emitted result].
  split; [reflexivity |]. split; [exact Kg |].
  split; [cbn [sched_steps set_sched_steps]; now rewrite Ks |].
  split; [exact Kn |].
  split.
  - unfold fetched in *. rewrite !omap_app, Kf.
    change (omap fetched_of [NetTrain; NewLoader "train"]) with (@nil (list Sample)).
    change (omap fetched_of [SchedulerStep]) with (@nil (list Sample)).
    now rewrite app_nil_r.
  - split.
    + cbn [app List.filter is_scheduler_step].
      rewrite List.filter_app, Kc. reflexivity.
    + rewrite app_assoc. apply last_snoc.
Qed.

Lemma epochs_step cfg ds epoch es start_iter (st : State) :
  result (epoch_body cfg ds epoch start_iter st) = inr 0 ->
  epochs cfg ds (epoch :: es) start_iter st =
  after (emitted (epoch_body cfg ds epoch start_iter st))
    (epochs cfg ds es 0 (post (epoch_body cfg ds epoch start_iter st))).
Proof. intros Hr. cbn [epochs]. rewrite (bind_inr _ _ _ _ Hr). reflexivity. Qed.

Lemma epochs_run cfg ds :
  runnable cfg ->
  forall (es : list Z) (start_iter : Z) (st : State),
  grad_enabled st = true -> 0 <= start_iter ->
  let r := epochs cfg ds es start_iter st in
  result r = inr tt /\
  sched_steps (post r) = (sched_steps st + length es)%nat /\
  List.filter is_scheduler_step (emitted r) = repeat SchedulerStep (length es) /\
  fetched (emitted r) = fetch_plan cfg ds (length es) start_iter (rng st).
Proof.
  intros Hrun es.
  induction es as [|e es IH]; intros s st Hg Hs r; subst r.
  - cbn [epochs ret post emitted result length fetch_plan repeat].
    rewrite Nat.add_0_r. repeat split.
  - destruct (epoch_body_facts cfg ds e s st Hrun Hg Hs)
      as (Hr & Kg & Ks & Kn & Kf & Kc & _).
    rewrite (epochs_step _ _ _ _ _ _ Hr). unfold after. cbn [post emitted result].
    destruct (IH 0 (post (epoch_body cfg ds e s st)) Kg ltac:(lia))
      as (Ir & Is & Ic & If).
    split; [exact Ir |].
    split; [rewrite Is, Ks; cbn [length]; lia |].
    split.
    + rewrite List.filter_app, Kc, Ic. reflexivity.
    + unfold fetched in *. rewrite omap_app, Kf, If, Kn. reflexivity.
Qed.

(** C6: under a runnable configuration an epoch that starts in grad
    mode at a non-negative iteration completes, its last act is one
    scheduler step (the only one of the epoch), and the value it leaves
    for [start_iter] is 0: the remaining epochs are run from iteration 0,
    each again ending in one scheduler step. *)
Theorem epoch_end_steps_scheduler cfg ds epoch start_iter (st : State) :
  runnable cfg -> grad_enabled st = true -> 0 <= start_iter ->
  let r := epoch_body cfg ds epoch start_iter st in
  result r = inr 0 /\
  sched_steps (post r) = S (sched_steps st) /\
  List.filter is_scheduler_step (emitted r) = [SchedulerStep] /\
  last (emitted r) = Some SchedulerStep /\
  forall es,
    let R := epochs cfg ds (epoch :: es) start_iter st in
    R = after (emitted r) (epochs cfg ds es 0 (post r)) /\
    result R = inr tt /\
    sched_steps (post R) = (sched_steps st + S (length es))%nat /\
    List.filter is_scheduler_step (emitted R) = repeat SchedulerStep (S (length es)).
Proof.
  intros Hrun Hg Hs r.
  destruct (epoch_body_facts cfg ds epoch start_iter st Hrun Hg Hs)
    as (Hr & Kg & Ks & Kn & Kf & Kc & Kl).
  fold r in Hr, Kg, Ks, Kn, Kf, Kc, Kl.
  split; [exact Hr |]. split; [exact Ks |]. split; [exact Kc |].
  split; [exact Kl |].
  intros es R.
  destruct (epochs_run cfg ds Hrun (epoch :: es) start_iter st Hg Hs)
    as (Ir & Is & Ic & _).
  fold R in Ir, Is, Ic.
  split; [apply epochs_step; exact Hr |].
  split; [exact Ir |]. split; [exact Is | exact Ic].
Qed.

(** C5 (amended): the training batches fetched by the epoch loop are
    those of [fetch_plan]: the first epoch, resumed at iteration [s],
    takes the first [niter - s] batches of a fresh shuffle, and every
    later epoch starts at 0 and takes all [niter] batches of its own
    shuffle, each once and in order.  The batches of a shuffle are its
    [len // batch_size] full groups: together they hold every sample of
    the data set once except the last [len mod batch_size] of the
    shuffled order, which no iteration of that epoch visits. *)
Theorem epochs_fetch_full_batches cfg ds es start_iter (st : State) :
  runnable cfg -> grad_enabled st = true -> 0 <= start_iter ->
  fetched (emitted (epochs cfg ds es start_iter st)) =
    fetch_plan cfg ds (length es) start_iter (rng st) /\
  forall seed,
    let b := Z.to_nat (batch_size cfg) in
    let order := shuffle seed ds in
    let all := batches b true order in
    take (Z.to_nat (niter_of cfg ds - 0)) all = all /\
    length all = (length ds / b)%nat /\
    concat all = take (b * (length ds / b)) order /\
    Permutation (concat all ++ drop (b * (length ds / b)) order) ds /\
    length (drop (b * (length ds / b)) order) = (length ds mod b)%nat.
Proof.
  intros Hrun Hg Hs.
  split; [apply (epochs_run cfg ds Hrun es start_iter st Hg Hs) |].
  intros seed b order all.
  destruct Hrun as (Hb & _).
  assert (Hb' : (0 < b)%nat) by (subst b; lia).
  assert (Hlen : length order = length ds)
    by apply Permutation_length, shuffle_perm.
  assert (Hall : length all = (length ds / b)%nat).
  { subst all. rewrite batches_length by exact Hb'. now rewrite Hlen. }
  assert (Hcat : concat all = take (b * (length ds / b)) order).
  { subst all. rewrite batches_concat by exact Hb'. now rewrite Hlen. }
  split.
  { apply take_ge. rewrite Hall. unfold niter_of, loader_len.
    rewrite Z.sub_0_r. subst b.
    rewrite <- (Z2Nat.id (batch_size cfg)) at 2 by lia.
    rewrite <- Nat2Z.inj_div, Nat2Z.id. lia. }
  split; [exact Hall |]. split; [exact Hcat |].
  split.
  - rewrite Hcat, take_drop. apply shuffle_perm.
  - rewrite length_drop, Hlen.
    pose proof (Nat.div_mod_eq (length ds) b). lia.
Qed.

(** The message of a completed held-out pass divides both sums by the
    number of samples of the held-out set. *)
Lemma test_message_logged cfg (st : State) :
  0 < batch_size cfg -> AMASSdataset cfg "test" <> [] ->
  result (test cfg st) = inr tt /\
  last (emitted (test cfg st)) = Some (test_message cfg (weights st)).
Proof.
  intros Hb Hd. rewrite test_run. cbn [emitted result].
  split; [now apply test_spec_ok |].
  unfold test_spec.
  destruct (decide (batch_size cfg <= 0)); [lia |].
  destruct (decide (Z.of_nat (length (AMASSdataset cfg "test")) = 0)) as [Hn|Hn].
  - destruct (AMASSdataset cfg "test"); [contradiction | simpl in Hn; lia].
  - cbn [fst]. rewrite !app_assoc. apply last_snoc.
Qed.

(** C7: a call of [test] changes nothing but the network's mode flag:
    parameters, stored gradient, optimizer state and grad mode are as
    before; every forward pass inside runs with grad mode off, and no
    backward pass or optimizer step occurs.  The call keeps nothing for
    the next one: its events and outcome depend on the state only through
    the parameters, so a second call reports what the first did. *)
Theorem test_keeps_parameters (cfg : CfgNode) (st : State) :
  let r := test cfg st in
  post r = set_training false st /\
  weights (post r) = weights st /\
  grads (post r) = grads st /\
  opt_state (post r) = opt_state st /\
  grad_enabled (post r) = grad_enabled st /\
  (forall b, Forward b ∈ emitted r -> b = false) /\
  (OptimizerStep ∉ emitted r) /\
  (forall l, Backward l ∉ emitted r) /\
  (forall st', weights st' = weights st ->
     emitted (test cfg st') = emitted r /\ result (test cfg st') = result r) /\
  emitted (test cfg (post r)) = emitted r /\
  result (test cfg (post r)) = result r.
Proof.
  intros r. subst r. rewrite !test_run. cbn [post emitted result].
  change (weights (set_training false st)) with (weights st).
  pose proof (test_spec_held_out cfg (weights st)) as Hev.
  rewrite Forall_forall in Hev.
  repeat split.
  - intros b Hb. apply Hev in Hb. destruct b; [contradiction | reflexivity].
  - intros Hin. exact (Hev _ Hin).
  - intros l Hin. exact (Hev _ Hin).
  - rewrite test_run. cbn [emitted]. now rewrite H.
  - rewrite test_run. cbn [result]. now rewrite H.
Qed.

(** C9: on a command line with a ['--'], the arguments handed to the
    parser are those between the program name and the first ['--'], and
    the whole import-time run (the parsed [config_file], recorded in the
    events, and the frozen configuration) is the same whatever follows
    the ['--']. *)
Theorem startup_ignores_overrides (fs : gmap string string)
    (pre post1 post2 : list string) :
  "--" ∉ pre ->
  cli_argv (pre ++ "--" :: post1) = inr (drop 1 pre) /\
  startup fs (pre ++ "--" :: post1) tt = startup fs (pre ++ "--" :: post2) tt.
Proof.
  intros Hn. split; [now apply cli_argv_first |].
  unfold startup. now rewrite !(cli_argv_first _ _ Hn).
Qed.

(** C10: without a ['--'] on the command line the slicing of line 25
    raises [ValueError]; nothing has been emitted by then (no argument
    parsed, no configuration loaded) and [train] never starts, so the
    state is untouched. *)
Theorem startup_without_separator (fs : gmap string string)
    (sys_argv : list string) (st : State) :
  "--" ∉ sys_argv ->
  cli_argv sys_argv = inl ValueError /\
  startup fs sys_argv tt = MkRun tt [] (inl ValueError) /\
  script fs sys_argv st = MkRun st [] (inl ValueError).
Proof.
  intros Hn.
  assert (Hc : cli_argv sys_argv = inl ValueError).
  { unfold cli_argv. now rewrite (list_index_absent _ Hn). }
  assert (Hs : startup fs sys_argv tt = MkRun tt [] (inl ValueError)).
  { unfold startup. rewrite Hc. reflexivity. }
  repeat split; [exact Hc | exact Hs |].
  unfold script. rewrite Hs. reflexivity.
Qed.

(** * Further properties of the script *)

(** ** The command line *)

(** X1: the slicing of line 25 succeeds exactly on the command lines
    that hold a ['--']; the result is then what stands between the
    program name and the first ['--'], it never holds a ['--'] itself,
    and with nothing before the ['--'] but the program name it is
    empty.  Without a ['--'] the outcome is [ValueError]. *)
Theorem cli_argv_spec (sys_argv l : list string) :
  (cli_argv sys_argv = inr l <->
     exists pre post, sys_argv = pre ++ "--" :: post /\ ("--" ∉ pre) /\ l = drop 1 pre) /\
  (cli_argv sys_argv = inr l -> "--" ∉ l) /\
  (cli_argv sys_argv = inl ValueError <-> "--" ∉ sys_argv) /\
  (forall prog post, cli_argv (prog :: "--" :: post) = inr []).
Proof.
  assert (Hfwd : cli_argv sys_argv = inr l ->
            exists pre post, sys_argv = pre ++ "--" :: post /\ ("--" ∉ pre) /\ l = drop 1 pre).
  { intros Hc. destruct (decide ("--" ∈ sys_argv)) as [Hin|Hnin].
    - apply list_elem_of_split_l in Hin as (pre & post & -> & Hpre).
      exists pre, post. rewrite (cli_argv_first _ _ Hpre) in Hc.
      injection Hc as <-. auto.
    - unfold cli_argv in Hc. rewrite (list_index_absent _ Hnin) in Hc. discriminate. }
  split; [split; [exact Hfwd |] |].
  { intros (pre & post & -> & Hpre & ->). now apply cli_argv_first. }
  split.
  { intros Hc. destruct (Hfwd Hc) as (pre & post & _ & Hpre & ->).
    intros Hin. apply Hpre. destruct pre as [|p pre]; [inversion Hin |].
    simpl in Hin. now apply elem_of_cons; right. }
  split.
  { split.
    - intros Hc Hin.
      apply list_elem_of_split_l in Hin as (pre & post & -> & Hpre).
      rewrite (cli_argv_first _ _ Hpre) in Hc. discriminate.
    - intros Hnin. unfold cli_argv. now rewrite (list_index_absent _ Hnin). }
  intros prog post. unfold cli_argv. cbn [list_index].
  destruct (decide (prog = "--")) as [->|Hne]; [reflexivity |].
  destruct (decide ("--" = "--")); [reflexivity | congruence].
Qed.

(** ** Binarization *)

Lemma compare_half_total (x : float) :
  x <> S754_nan -> SFltb x half = true \/ SFleb half x = true.
Proof.
  intros Hx.
  assert (Hc : exists c, SFcompare x half = Some c).
  { destruct x as [s|s| |s m e]; [| | congruence |];
      unfold half; eexists; reflexivity. }
  destruct Hc as [c Hc]. unfold SFltb, SFleb.
  rewrite (SFcompare_antisym x half), Hc.
  destruct c; simpl; auto.
Qed.

Lemma binarize_elem_cases (x : float) :
  (x = S754_nan /\ binarize_elem x = S754_nan) \/
  (x <> S754_nan /\ (binarize_elem x = zero \/ binarize_elem x = one)).
Proof.
  assert (Hd : x = S754_nan \/ x <> S754_nan)
    by (destruct x; [right | right | left | right]; congruence).
  destruct Hd as [->|Hx]; [left; split; reflexivity |].
  right. split; [exact Hx |].
  destruct (compare_half_total x Hx) as [H|H];
    [left; now apply binarize_elem_lt | right; now apply binarize_elem_ge].
Qed.

Lemma binarize_elem_idem (x : float) :
  binarize_elem (binarize_elem x) = binarize_elem x.
Proof.
  destruct (binarize_elem_cases x) as [[_ ->]|[_ [->| ->]]]; reflexivity.
Qed.

(** X2: binarization keeps the number of elements and sends every
    element that is not a NaN to 0 or to 1; a NaN stays a NaN (it is
    neither below 0.5 nor at least 0.5, so neither [masked_fill] touches
    it).  Binarizing a second time changes nothing. *)
Theorem binarize_classifies (t : Tensor) :
  length (data (binarize t)) = length (data t) /\
  (forall i x, data t !! i = Some x ->
     (x = S754_nan /\ data (binarize t) !! i = Some S754_nan) \/
     (x <> S754_nan /\
      (data (binarize t) !! i = Some zero \/ data (binarize t) !! i = Some one))) /\
  data (binarize (binarize t)) = data (binarize t).
Proof.
  rewrite !binarize_data. split; [apply length_map |]. split.
  - intros i x Hx.
    pose proof (list_lookup_fmap binarize_elem (data t) i) as E.
    change (map binarize_elem (data t)) with (binarize_elem <$> data t).
    unfold float in *. rewrite E, Hx. cbn [fmap option_fmap option_map].
    destruct (binarize_elem_cases x) as [[-> ->]|[Hn [->| ->]]]; auto.
  - rewrite map_map. apply map_ext. intros x. apply binarize_elem_idem.
Qed.

(** ** Zero frequencies *)

Lemma print_block_zero cfg epoch i niter gs loss correct (s : State) :
  freq_plot cfg = 0 ->
  print_block cfg epoch i niter gs loss correct s = MkRun s [] (inl ZeroDivisionError).
Proof.
  intros Hf. unfold print_block. rewrite Hf.
  now rewrite (bind_run_raise _ _ _ _ _ _ (due_zero i true s)).
Qed.

Lemma image_block_zero cfg i gs (s : State) :
  freq_show cfg = 0 ->
  image_block cfg i gs s = MkRun s [] (inl ZeroDivisionError).
Proof.
  intros Hf. unfold image_block. rewrite Hf.
  now rewrite (bind_run_raise _ _ _ _ _ _ (due_zero i true s)).
Qed.

Lemma save_block_zero cfg epoch i (s : State) :
  freq_save cfg = 0 ->
  save_block cfg epoch i s = MkRun s [] (inl ZeroDivisionError).
Proof.
  intros Hf. unfold save_block. rewrite Hf.
  now rewrite (bind_run_raise _ _ _ _ _ _ (due_zero i _ s)).
Qed.

Lemma evaluation_block_zero cfg i (s : State) :
  freq_eval cfg = 0 ->
  evaluation_block cfg i s = MkRun s [] (inl ZeroDivisionError).
Proof.
  intros Hf. unfold evaluation_block. rewrite Hf.
  now rewrite (bind_run_raise _ _ _ _ _ _ (due_zero i _ s)).
Qed.

Lemma side_effects_zero cfg epoch i niter gs loss correct (s : State) :
  freq_plot cfg = 0 \/ freq_show cfg = 0 \/ freq_save cfg = 0 \/ freq_eval cfg = 0 ->
  let r := side_effects cfg epoch i niter gs loss correct s in
  result r = inl ZeroDivisionError /\ post r = s /\
  existsb is_eval (emitted r) = false.
Proof.
  intros Hz r. subst r. unfold side_effects.
  destruct (decide (freq_plot cfg = 0)) as [Zp|Np].
  { now rewrite (bind_run_raise _ _ _ _ _ _ (print_block_zero _ _ _ _ _ _ _ s Zp)). }
  rewrite (bind_run _ _ _ _ _ _ (print_block_run _ _ _ _ _ _ _ s Np)). cbv beta.
  destruct (decide (freq_show cfg = 0)) as [Zs|Ns].
  { rewrite (bind_run_raise _ _ _ _ _ _ (image_block_zero _ _ _ s Zs)).
    unfold after. cbn [post emitted result]. rewrite app_nil_r.
    repeat split. destruct (due_now i (freq_plot cfg) true); reflexivity. }
  rewrite (bind_run _ _ _ _ _ _ (image_block_run _ _ _ s Ns)). cbv beta.
  destruct (decide (freq_save cfg = 0)) as [Zv|Nv].
  { rewrite (bind_run_raise _ _ _ _ _ _ (save_block_zero _ _ _ s Zv)).
    unfold after. cbn [post emitted result]. rewrite !app_nil_r.
    repeat split.
    destruct (due_now i (freq_plot cfg) true), (due_now i (freq_show cfg) true);
      reflexivity. }
  rewrite (bind_run _ _ _ _ _ _ (save_block_run _ _ _ s Nv)). cbv beta.
  assert (Ze : freq_eval cfg = 0) by tauto.
  rewrite (evaluation_block_zero _ _ s Ze).
  unfold after. cbn [post emitted result]. rewrite !app_nil_r.
  repeat split.
  destruct (due_now i (freq_plot cfg) true), (due_now i (freq_show cfg) true),
    (due_now i (freq_save cfg) (negb (overfit cfg))); reflexivity.
Qed.

Lemma periodic_not_optimizer_step ev :
  periodic_event ev -> is_optimizer_step ev = false.
Proof. destruct ev as [| | | | | | | | |[]| | | | | | | | | | | | |]; simpl; tauto. Qed.

(** X3: a frequency of 0 does not switch its side effect off: the
    modulus of lines 149-173 is taken before [iteration > 0] is looked
    at, so with any of the four frequencies 0 the side-effect block
    raises [ZeroDivisionError] at every iteration, iteration 0 and the
    overfit mode included, without reaching the held-out evaluation.
    An iteration that has a batch has by then taken its gradient step:
    the state it leaves is the one after [optimizer.step()]. *)
Theorem zero_frequency_raises cfg epoch niter i :
  freq_plot cfg = 0 \/ freq_show cfg = 0 \/ freq_save cfg = 0 \/ freq_eval cfg = 0 ->
  (forall gs loss correct (st : State),
     let r := side_effects cfg epoch i niter gs loss correct st in
     result r = inl ZeroDivisionError /\ post r = st /\
     existsb is_eval (emitted r) = false) /\
  (forall (st : State) g rest,
     loader st = g :: rest -> grad_enabled st = true ->
     let r := iteration_body cfg epoch niter i st in
     result r = inl ZeroDivisionError /\ post r = after_step st g rest /\
     List.filter is_optimizer_step (emitted r) = [OptimizerStep]).
Proof.
  intros Hz. split.
  - intros gs loss correct st. now apply side_effects_zero.
  - intros st g rest Hl Hg r. subst r.
    rewrite iteration_body_is_with.
    rewrite (iteration_body_with_run binarize _ _ _ _ _ _ _ Hl Hg).
    unfold after. cbn [post emitted result].
    destruct (side_effects_zero cfg epoch i niter (epoch * niter + i)
                (train_loss st g)
                (accuracy (binarize (train_output st g)) (targets (collate g)))
                (after_step st g rest) Hz) as (Hr & Hp & _).
    split; [exact Hr |]. split; [exact Hp |].
    rewrite List.filter_app.
    rewrite (filter_none is_optimizer_step _ _ periodic_not_optimizer_step
               (side_effects_emits _ _ _ _ _ _ _ _)).
    reflexivity.
Qed.

(** ** An empty held-out set *)

(** X4: with no held-out sample, [test] fetches no batch and then
    raises [ZeroDivisionError] at the division of line 69, having logged
    nothing.  When the evaluation is due in the training loop, the
    exception leaves the loop before [net.train()] of line 176: the
    network stays in evaluation mode. *)
Theorem test_on_empty_set cfg i (st : State) :
  0 < batch_size cfg -> AMASSdataset cfg "test" = [] ->
  freq_eval cfg <> 0 -> positive_multiple i (freq_eval cfg) -> overfit cfg = false ->
  test cfg st =
    MkRun (set_training false st) [NetEval; NewDataset "test"; NewLoader "test"]
          (inl ZeroDivisionError) /\
  evaluation_block cfg i st =
    MkRun (set_training false st)
          [NetEval; NetEval; NewDataset "test"; NewLoader "test"]
          (inl ZeroDivisionError).
Proof.
  intros Hb Hd Hf Hi Ho.
  assert (Hspec : forall w, test_spec cfg w =
            ([NetEval; NewDataset "test"; NewLoader "test"], inl ZeroDivisionError)).
  { intros w. unfold test_spec, test_loader. rewrite Hd.
    destruct (decide (batch_size cfg <= 0)); [lia |].
    reflexivity. }
  split.
  - rewrite test_run, Hspec. reflexivity.
  - rewrite (evaluation_block_run cfg i st Hf).
    assert (Hdue : due_now i (freq_eval cfg) (negb (overfit cfg)) = true).
    { apply (due_now_spec i _ _ Hf). rewrite Ho. auto. }
    rewrite Hdue. unfold evaluation_events. rewrite Hspec. reflexivity.
Qed.

(** ** The held-out loader *)

Lemma batches_all_concat (fuel b : nat) (l : list Sample) :
  (0 < b)%nat -> (length l <= fuel)%nat ->
  concat (batches_aux fuel b false l) = l.
Proof.
  intros Hb. revert l.
  induction fuel as [|fuel IH]; intros l Hl.
  - destruct l; simpl in *; [reflexivity | lia].
  - destruct l as [|x l]; [reflexivity |].
    cbn [batches_aux].
    destruct (b <=? length (x :: l))%nat eqn:Hle.
    + apply Nat.leb_le in Hle. cbn [concat].
      rewrite IH by (rewrite length_drop; lia).
      apply take_drop.
    + cbn [concat]. apply app_nil_r.
Qed.

Lemma batches_all_length (fuel b : nat) (l : list Sample) :
  (0 < b)%nat -> (length l <= fuel)%nat ->
  length (batches_aux fuel b false l) = ((length l + b - 1) / b)%nat.
Proof.
  intros Hb. revert l.
  induction fuel as [|fuel IH]; intros l Hl.
  - destruct l; cbn [length batches_aux] in *; [| lia].
    rewrite Nat.div_small by lia. reflexivity.
  - destruct l as [|x l];
      [cbn [length batches_aux]; rewrite Nat.div_small by lia; reflexivity |].
    cbn [batches_aux].
    destruct (b <=? length (x :: l))%nat eqn:Hle.
    + apply Nat.leb_le in Hle. cbn [length] in *.
      rewrite IH by (rewrite length_drop; cbn [length]; lia).
      rewrite length_drop. cbn [length].
      rewrite (div_step (S (length l) + b - 1) b Hb) by lia.
      f_equal. f_equal. lia.
    + apply Nat.leb_gt in Hle. cbn [length] in *.
      rewrite (div_step (S (length l) + b - 1) b Hb) by lia.
      rewrite Nat.div_small by lia. reflexivity.
Qed.

Lemma batches_all_sizes (fuel b : nat) (l : list Sample) :
  (0 < b)%nat ->
  Forall (fun g => (0 < length g <= b)%nat) (batches_aux fuel b false l).
Proof.
  intros Hb. revert l.
  induction fuel as [|fuel IH]; intros l; [constructor |].
  destruct l as [|x l]; [constructor |].
  cbn [batches_aux].
  destruct (b <=? length (x :: l))%nat eqn:Hle.
  - apply Nat.leb_le in Hle. constructor; [| apply IH].
    rewrite length_take. cbn [length] in *. lia.
  - apply Nat.leb_gt in Hle.
    constructor; [cbn [length] in *; lia | constructor].
Qed.

Lemma held_out_fetched_test_events (gs : list (list Sample)) :
  held_out_fetched (test_events gs) = gs.
Proof.
  unfold held_out_fetched.
  induction gs as [|g gs IH]; [reflexivity |].
  cbn [test_events flat_map app]. fold (test_events gs).
  change (omap held_out_of (NextBatch "test" g :: Forward false :: test_events gs))
    with (g :: omap held_out_of (test_events gs)).
  now rewrite IH.
Qed.

Lemma forward_count_test_events (gs : list (list Sample)) :
  length (List.filter is_forward (test_events gs)) = length gs.
Proof.
  induction gs as [|g gs IH]; [reflexivity |].
  cbn [test_events flat_map app]. fold (test_events gs).
  cbn [List.filter is_forward length]. now rewrite IH.
Qed.

Lemma test_spec_fetched cfg (w : Weights) :
  0 < batch_size cfg ->
  held_out_fetched (fst (test_spec cfg w)) = test_loader cfg /\
  length (List.filter is_forward (fst (test_spec cfg w))) = length (test_loader cfg).
Proof.
  intros Hb. unfold test_spec.
  destruct (decide (batch_size cfg <= 0)); [lia |].
  destruct (decide (Z.of_nat (length (AMASSdataset cfg "test")) = 0)); cbn [fst].
  - split.
    + unfold held_out_fetched. rewrite omap_app.
      change (omap held_out_of [NetEval; NewDataset "test"; NewLoader "test"])
        with (@nil (list Sample)).
      apply held_out_fetched_test_events.
    + rewrite List.filter_app.
      change (List.filter is_forward [NetEval; NewDataset "test"; NewLoader "test"])
        with (@nil event).
      apply forward_count_test_events.
  - split.
    + unfold held_out_fetched. rewrite !omap_app.
      change (omap held_out_of [NetEval; NewDataset "test"; NewLoader "test"])
        with (@nil (list Sample)).
      change (omap held_out_of [test_message cfg w]) with (@nil (list Sample)).
      rewrite app_nil_r. apply held_out_fetched_test_events.
    + rewrite !List.filter_app.
      change (List.filter is_forward [NetEval; NewDataset "test"; NewLoader "test"])
        with (@nil event).
      change (List.filter is_forward [test_message cfg w]) with (@nil event).
      rewrite app_nil_r. apply forward_count_test_events.
Qed.

(** X5: the held-out loader keeps the last, shorter batch: for a
    positive batch size a call of [test] fetches the held-out samples in
    their order, each exactly once, in [ceil(N / batch_size)] non-empty
    batches of at most [batch_size] samples, and runs the network once
    per batch. *)
Theorem held_out_pass_covers_all cfg (st : State) :
  0 < batch_size cfg ->
  let evs := emitted (test cfg st) in
  concat (held_out_fetched evs) = AMASSdataset cfg "test" /\
  Z.of_nat (length (held_out_fetched evs)) =
    loader_len (Z.of_nat (length (AMASSdataset cfg "test"))) (batch_size cfg) false /\
  Forall (fun g => (0 < length g)%nat /\ Z.of_nat (length g) <= batch_size cfg)
    (held_out_fetched evs) /\
  length (List.filter is_forward evs) = length (held_out_fetched evs).
Proof.
  intros Hb evs. subst evs. rewrite test_run. cbn [emitted].
  assert (Hb' : (0 < Z.to_nat (batch_size cfg))%nat) by lia.
  destruct (test_spec_fetched cfg (weights st) Hb) as [Hf Hc].
  rewrite Hf, Hc. unfold test_loader, batches.
  split; [apply batches_all_concat; [exact Hb' | lia] |].
  split.
  { rewrite batches_all_length by (try exact Hb'; lia).
    unfold loader_len. rewrite Nat2Z.inj_div.
    f_equal; lia. }
  split; [| reflexivity].
  eapply Forall_impl; [apply batches_all_sizes; exact Hb' |].
  intros g Hg. cbv beta in Hg. lia.
Qed.

(** X6: with [batch_size = 1] the held-out loader has one batch per
    sample, so the divisor of lines 69 and 71 is the number of batches:
    the message of a completed call holds the averages of the per-batch
    loss and accuracy over the pass. *)
Theorem test_message_is_average_for_single_samples cfg (st : State) :
  batch_size cfg = 1 -> AMASSdataset cfg "test" <> [] ->
  let gs := test_loader cfg in
  let sums := test_sums (weights st) gs (zero, zero) in
  let n := Z.of_nat (length gs) in
  result (test cfg st) = inr tt /\
  last (emitted (test cfg st)) =
    Some (Info (MsgTest (f64_div (fst sums) (f64_of_Z n))
                  (f32_div (f32_mul (f32_of_Z 100) (snd sums)) (f32_of_Z n)))).
Proof.
  intros Hb Hd gs sums n.
  destruct (test_message_logged cfg st ltac:(lia) Hd) as [Hr Hl].
  split; [exact Hr |]. rewrite Hl. unfold test_message.
  assert (Hn : n = Z.of_nat (length (AMASSdataset cfg "test"))).
  { subst n gs. unfold test_loader, batches. rewrite Hb.
    rewrite batches_all_length by (simpl; lia).
    change (Z.to_nat 1) with 1%nat.
    rewrite Nat.div_1_r. f_equal. lia. }
  rewrite <- Hn. reflexivity.
Qed.

(** ** What [train] can emit *)

Lemma emits_get P : emits P (get (E := event) (S := State)).
Proof. intros s. constructor. Qed.

Lemma emits_modify P (f : State -> State) : emits P (modify (E := event) f).
Proof. intros s. constructor. Qed.

Lemma emits_impl {A} (P Q : event -> Prop) (m : Prog A) :
  (forall ev, P ev -> Q ev) -> emits P m -> emits Q m.
Proof. intros H Hm s. eapply Forall_impl; [apply Hm | exact H]. Qed.

Lemma emits_for_each {A} P (xs : list A) (body : A -> Prog unit) :
  (forall x, emits P (body x)) -> emits P (for_each xs body).
Proof.
  intros Hb. induction xs as [|x xs IH]; [apply emits_ret |].
  cbn [for_each]. apply emits_bind; [apply Hb | intros _; exact IH].
Qed.

Ltac plumbing :=
  repeat first
    [ apply emits_ret | apply emits_raise | apply emits_lift
    | apply emits_get | apply emits_modify
    | apply emits_emit; left; exact I
    | apply emits_bind; [| intros ? ] ].

Lemma DataLoader_emits Q split bs nw :
  emits (fun ev => plumbing_event ev \/ Q ev) (DataLoader split bs nw).
Proof.
  unfold DataLoader. destruct (decide (nw < 0)); [apply emits_raise |].
  destruct (decide (bs <= 0)); plumbing.
Qed.

Lemma load_or_report_emits Q fs cfg :
  emits (fun ev => plumbing_event ev \/ Q ev) (load_or_report fs cfg).
Proof.
  unfold load_or_report. destruct (path_exists fs (ckpt_path cfg)); [| plumbing].
  unfold load_ckpt. apply emits_bind; [plumbing | intros _].
  destruct (fs !! ckpt_path cfg); [| plumbing].
  apply emits_bind; [plumbing | intros [[[w o] e] i]]. plumbing.
Qed.

Lemma setup_emits Q fs cfg :
  emits (fun ev => plumbing_event ev \/ Q ev) (setup fs cfg).
Proof.
  unfold setup.
  apply emits_bind; [plumbing | intros _].
  apply emits_bind; [apply DataLoader_emits | intros _].
  apply emits_bind; [plumbing | intros s0].
  do 6 (apply emits_bind; [plumbing | intros _]).
  apply emits_bind; [apply load_or_report_emits | intros _].
  plumbing.
Qed.

Lemma gradient_step_emits Q (loss : Tensor) :
  emits (fun ev => plumbing_event ev \/ Q ev) zero_grad /\
  emits (fun ev => plumbing_event ev \/ Q ev) (backward loss) /\
  emits (fun ev => plumbing_event ev \/ Q ev) optimizer_step_.
Proof.
  split; [unfold zero_grad; plumbing |]. split.
  - unfold backward. destruct (node loss); plumbing.
  - unfold optimizer_step_. apply emits_bind; [plumbing | intros _].
    apply emits_bind; [plumbing | intros s].
    destruct (grads s); [| plumbing].
    destruct (optimizer_step _ _ _ _). plumbing.
Qed.

Lemma iteration_body_emits Q cfg epoch niter i :
  (forall loss correct,
     emits Q (side_effects cfg epoch i niter (epoch * niter + i) loss correct)) ->
  emits (fun ev => plumbing_event ev \/ Q ev) (iteration_body cfg epoch niter i).
Proof.
  intros Hse. unfold iteration_body.
  apply emits_bind; [| intros data_dict].
  { unfold next_batch. apply emits_bind; [plumbing | intros s].
    destruct (loader s); plumbing. }
  apply emits_bind; [unfold call_net; plumbing | intros output].
  apply emits_bind; [apply gradient_step_emits; exact output | intros _].
  apply emits_bind; [apply gradient_step_emits | intros _].
  apply emits_bind; [apply gradient_step_emits; exact output | intros _].
  eapply emits_impl; [| apply Hse]. intros ev Hev. now right.
Qed.

Lemma epochs_emits Q cfg ds :
  (forall epoch i niter loss correct,
     emits Q (side_effects cfg epoch i niter (epoch * niter + i) loss correct)) ->
  forall es start_iter,
  emits (fun ev => plumbing_event ev \/ Q ev) (epochs cfg ds es start_iter).
Proof.
  intros Hse es. induction es as [|e es IH]; intros s; [apply emits_ret |].
  cbn [epochs]. apply emits_bind; [| intros s'; apply IH].
  unfold epoch_body.
  apply emits_bind; [unfold net_train; plumbing | intros _].
  apply emits_bind; [apply DataLoader_emits | intros _].
  apply emits_bind; [unfold iter_train; plumbing | intros _].
  apply emits_bind; [| intros _; unfold scheduler_step; plumbing].
  apply emits_for_each. intros i. apply iteration_body_emits. intros loss correct.
  apply Hse.
Qed.

Lemma train_emits Q fs cfg :
  (forall epoch i niter loss correct,
     emits Q (side_effects cfg epoch i niter (epoch * niter + i) loss correct)) ->
  emits (fun ev => plumbing_event ev \/ Q ev) (train fs cfg).
Proof.
  intros Hse. unfold train.
  apply emits_bind; [apply setup_emits | intros ds].
  apply emits_bind; [apply emits_get | intros s].
  now apply epochs_emits.
Qed.

Lemma due_never P i f (m : Prog unit) :
  emits P (b <- due i f false ;; when b m).
Proof.
  intros s. destruct (decide (f = 0)) as [->|Hf].
  - unfold bind. rewrite due_zero. constructor.
  - rewrite (bind_run _ _ _ _ _ _ (due_run i f false s Hf)).
    unfold due_now. rewrite andb_false_r. constructor.
Qed.

Lemma side_effects_overfit cfg epoch i niter gs loss correct :
  overfit cfg = true ->
  emits quiet_event (side_effects cfg epoch i niter gs loss correct).
Proof.
  intros Ho. unfold side_effects, save_block, evaluation_block. rewrite Ho.
  cbn [negb].
  apply emits_bind; [| intros _].
  { unfold print_block. apply emits_bind; [apply due_emits | intros b].
    apply emits_when.
    repeat (apply emits_bind; [| intros _]); apply emits_emit; split; reflexivity. }
  apply emits_bind; [| intros _].
  { unfold image_block. apply emits_bind; [apply due_emits | intros b].
    apply emits_when.
    repeat (apply emits_bind; [| intros _]); apply emits_emit; split; reflexivity. }
  apply emits_bind; [apply due_never | intros _]. apply due_never.
Qed.

Lemma plumbing_quiet ev : plumbing_event ev -> quiet_event ev.
Proof.
  destruct ev as [| | | | | | | | |[]| | | | | | | | | | | | |]; simpl;
    try tauto; intros _; split; reflexivity.
Qed.

(** X7: with the overfit flag set, a run of [train] never saves a
    checkpoint and never touches the held-out set: whatever the
    frequencies, the data and the outcome of the run, none of its events
    is an [update_ckpt], an evaluation-mode switch or a held-out
    message. *)
Theorem overfit_never_saves_or_evaluates fs cfg (st : State) :
  overfit cfg = true ->
  Forall (fun ev => is_save ev = false /\ is_eval ev = false)
    (emitted (train fs cfg st)).
Proof.
  intros Ho.
  apply (emits_impl (fun ev => plumbing_event ev \/ quiet_event ev)).
  - intros ev [H|H]; [now apply plumbing_quiet | exact H].
  - apply train_emits. intros. now apply side_effects_overfit.
Qed.

(** ** Whole runs *)

Lemma range_empty (a b : Z) : b <= a -> range a b = [].
Proof.
  intros H. unfold range. replace (Z.to_nat (b - a)) with 0%nat by lia.
  reflexivity.
Qed.

Lemma niter_of_nonneg cfg ds : 0 < batch_size cfg -> 0 <= niter_of cfg ds.
Proof. intros Hb. unfold niter_of, loader_len. apply Z.div_pos; lia. Qed.

Lemma niter_of_small cfg ds :
  Z.of_nat (length ds) < batch_size cfg -> niter_of cfg ds = 0.
Proof. intros H. unfold niter_of, loader_len. apply Z.div_small. lia. Qed.

Lemma epoch_body_idle cfg ds epoch start_iter (st : State) :
  0 < batch_size cfg -> 0 <= num_threads cfg ->
  niter_of cfg ds <= start_iter ->
  epoch_body cfg ds epoch start_iter st =
  MkRun (set_sched_steps (S (sched_steps st)) (epoch_start cfg ds st))
        [NetTrain; NewLoader "train"; SchedulerStep] (inr 0).
Proof.
  intros Hb Hn Hs. unfold epoch_body.
  rewrite (bind_run _ _ _ _ _ _ (net_train_run st)).
  rewrite (bind_run _ _ _ _ _ _ (DataLoader_run "train" _ _ (set_training true st) Hb Hn)).
  rewrite (bind_run _ _ _ _ _ _ (iter_train_run ds _ (set_training true st))).
  cbv beta. rewrite !after_after.
  fold (niter_of cfg ds). rewrite (range_empty _ _ Hs).
  reflexivity.
Qed.

(** X8: an epoch resumed at or past its last iteration (a cursor
    [start_iter >= niter], as after a checkpoint written for a larger
    data set or a smaller batch size) fetches nothing and takes no
    gradient step, whatever the frequencies are: it switches to training
    mode, builds its loader, steps the scheduler once and leaves
    [start_iter = 0] for the next epoch; parameters and optimizer are
    untouched. *)
Theorem resumed_past_the_end_only_steps_scheduler cfg ds epoch start_iter
    (st : State) :
  0 < batch_size cfg -> 0 <= num_threads cfg ->
  niter_of cfg ds <= start_iter ->
  let r := epoch_body cfg ds epoch start_iter st in
  result r = inr 0 /\
  emitted r = [NetTrain; NewLoader "train"; SchedulerStep] /\
  fetched (emitted r) = [] /\
  weights (post r) = weights st /\
  opt_state (post r) = opt_state st /\
  grads (post r) = grads st /\
  sched_steps (post r) = S (sched_steps st) /\
  training (post r) = true.
Proof.
  intros Hb Hn Hs r. subst r. rewrite (epoch_body_idle _ _ _ _ _ Hb Hn Hs).
  cbn [post emitted result]. repeat split.
Qed.

Lemma epochs_idle cfg ds :
  0 < batch_size cfg -> 0 <= num_threads cfg ->
  niter_of cfg ds = 0 ->
  forall (es : list Z) (start_iter : Z) (st : State),
  0 <= start_iter ->
  let r := epochs cfg ds es start_iter st in
  result r = inr tt /\
  emitted r = concat (map (fun _ => [NetTrain; NewLoader "train"; SchedulerStep]) es) /\
  weights (post r) = weights st /\
  opt_state (post r) = opt_state st /\
  sched_steps (post r) = (sched_steps st + length es)%nat.
Proof.
  intros Hb Hn Hz es.
  induction es as [|e es IH]; intros s st Hs r; subst r.
  - cbn [epochs ret post emitted result map concat length].
    rewrite Nat.add_0_r. repeat split.
  - assert (Hle : niter_of cfg ds <= s) by lia.
    cbn [epochs].
    rewrite (bind_run _ _ _ _ _ _ (epoch_body_idle cfg ds e s st Hb Hn Hle)).
    unfold after. cbn [post emitted result].
    destruct (IH 0 (set_sched_steps (S (sched_steps st)) (epoch_start cfg ds st))
                ltac:(lia)) as (Ir & Ie & Iw & Io & Is).
    split; [exact Ir |].
    split; [rewrite Ie; reflexivity |].
    split; [rewrite Iw; reflexivity |].
    split; [rewrite Io; reflexivity |].
    rewrite Is. cbn [sched_steps set_sched_steps length]. lia.
Qed.

(** X9: a training set with fewer samples than [batch_size] trains
    nothing.  [drop_last=True] leaves the loader empty, so every epoch
    consists of the mode switch, the loader and the scheduler step; the
    epoch loop completes without fetching a batch, without a gradient
    step and without any of the periodic side effects (no log line, no
    checkpoint, no held-out evaluation), and the parameters at the end
    are those at the start. *)
Theorem undersized_training_set_trains_nothing cfg ds es start_iter
    (st : State) :
  0 < batch_size cfg -> 0 <= num_threads cfg ->
  Z.of_nat (length ds) < batch_size cfg -> 0 <= start_iter ->
  let r := epochs cfg ds es start_iter st in
  niter_of cfg ds = 0 /\
  result r = inr tt /\
  emitted r = concat (map (fun _ => [NetTrain; NewLoader "train"; SchedulerStep]) es) /\
  fetched (emitted r) = [] /\
  List.filter is_optimizer_step (emitted r) = [] /\
  existsb is_save (emitted r) = false /\
  existsb is_eval (emitted r) = false /\
  existsb is_scalar_log (emitted r) = false /\
  weights (post r) = weights st /\
  sched_steps (post r) = (sched_steps st + length es)%nat.
Proof.
  intros Hb Hn Hsmall Hs r.
  pose proof (niter_of_small cfg ds Hsmall) as Hz.
  destruct (epochs_idle cfg ds Hb Hn Hz es start_iter st Hs)
    as (Ir & Ie & Iw & _ & Is).
  fold r in Ir, Ie, Iw, Is.
  split; [exact Hz |]. split; [exact Ir |]. split; [exact Ie |].
  rewrite Ie.
  assert (Hall : Forall (fun ev => ev = NetTrain \/ ev = NewLoader "train" \/
                                   ev = SchedulerStep)
                   (concat (map (fun _ : Z => [NetTrain; NewLoader "train"; SchedulerStep]) es))).
  { clear. induction es as [|e es IH]; [constructor |].
    cbn [map concat app]. repeat (constructor; [tauto |]). exact IH. }
  split.
  { apply fetched_none with (P := fun ev => ev = NetTrain \/ ev = NewLoader "train" \/
                                            ev = SchedulerStep); [| exact Hall].
    intros ev [->|[->| ->]]; reflexivity. }
  split.
  { apply filter_none with (P := fun ev => ev = NetTrain \/ ev = NewLoader "train" \/
                                           ev = SchedulerStep); [| exact Hall].
    intros ev [->|[->| ->]]; reflexivity. }
  split; [| split; [| split; [| split; [exact Iw | exact Is]]]];
    apply existsb_none with (P := fun ev => ev = NetTrain \/ ev = NewLoader "train" \/
                                            ev = SchedulerStep);
    try exact Hall; intros ev [->|[->| ->]]; reflexivity.
Qed.

Lemma fetch_plan_length cfg ds (n : nat) (seed : nat) :
  0 < batch_size cfg ->
  length (fetch_plan cfg ds n 0 seed) =
  (n * (length ds / Z.to_nat (batch_size cfg)))%nat.
Proof.
  intros Hb. revert seed.
  induction n as [|n IH]; intros seed; [reflexivity |].
  cbn [fetch_plan]. rewrite length_app, IH, length_take.
  rewrite batches_length by lia.
  rewrite (Permutation_length (shuffle_perm seed ds)).
  unfold niter_of, loader_len. rewrite Z.sub_0_r.
  rewrite <- (Z2Nat.id (batch_size cfg)) at 1 by lia.
  rewrite <- Nat2Z.inj_div, Nat2Z.id. lia.
Qed.

Lemma setup_absent_run fs cfg (st : State) :
  0 < batch_size cfg -> 0 <= num_threads cfg ->
  fs !! ckpt_path cfg = None ->
  setup fs cfg st =
  MkRun (set_rng (2 + rng (constructed cfg st))%nat (constructed cfg st))
        [NewDataset "train"; NewLoader "train"; NewNet; NewTrainer;
         Info (MsgCkptNotFound (ckpt_path cfg)); data_size_message cfg; AddGraph]
        (inr (AMASSdataset cfg "train")).
Proof.
  intros Hb Hn Hf. rewrite (setup_run fs cfg st Hb Hn).
  rewrite (bind_run _ _ _ _ _ _ (load_or_report_absent fs cfg _ Hf)).
  reflexivity.
Qed.

(** X10: a run of [train] from scratch.  Under a runnable configuration,
    in grad mode and with no checkpoint file, [train] returns normally
    after [num_epoch] epochs (none when [num_epoch <= 0]): the scheduler
    has been stepped once per epoch, the training batches are those of
    [num_epoch] successive shuffles, every epoch from iteration 0, and
    the number of gradient steps is [num_epoch * (len(dataset) //
    batch_size)]; the first event announces the training set. *)
Theorem train_from_scratch fs cfg (st : State) :
  runnable cfg -> grad_enabled st = true -> fs !! ckpt_path cfg = None ->
  let r := train fs cfg st in
  let ds := AMASSdataset cfg "train" in
  let n := Z.to_nat (num_epoch cfg) in
  result r = inr tt /\
  sched_steps (post r) = n /\
  List.filter is_scheduler_step (emitted r) = repeat SchedulerStep n /\
  fetched (emitted r) = fetch_plan cfg ds n 0 (3 + rng st) /\
  length (fetched (emitted r)) =
    (n * (length ds / Z.to_nat (batch_size cfg)))%nat /\
  head (emitted r) = Some (NewDataset "train").
Proof.
  intros Hrun Hg Hf r ds n.
  pose proof Hrun as (Hb & Hn & _).
  pose proof (setup_absent_run fs cfg st Hb Hn Hf) as Hsetup.
  set (s1 := set_rng (2 + rng (constructed cfg st))%nat (constructed cfg st)) in *.
  assert (Hr : r = after [NewDataset "train"; NewLoader "train"; NewNet; NewTrainer;
                          Info (MsgCkptNotFound (ckpt_path cfg));
                          data_size_message cfg; AddGraph]
                     (epochs cfg ds (range 0 (num_epoch cfg)) 0 s1)).
  { subst r. unfold train. rewrite (bind_run _ _ _ _ _ _ Hsetup). reflexivity. }
  assert (Hg1 : grad_enabled s1 = true) by exact Hg.
  destruct (epochs_run cfg ds Hrun (range 0 (num_epoch cfg)) 0 s1 Hg1 ltac:(lia))
    as (Ir & Is & Ic & If).
  rewrite range_length, Z.sub_0_r in Is, Ic, If. fold n in Is, Ic, If.
  assert (Hfe : fetched (emitted r) = fetch_plan cfg ds n 0 (3 + rng st)).
  { rewrite Hr. unfold after. cbn [emitted]. unfold fetched in *.
    rewrite omap_app, If.
    change (omap fetched_of _ ++ ?x) with x. reflexivity. }
  split; [rewrite Hr; exact Ir |].
  split; [rewrite Hr; unfold after; cbn [post]; rewrite Is; reflexivity |].
  split.
  { rewrite Hr. unfold after. cbn [emitted]. rewrite List.filter_app, Ic.
    reflexivity. }
  split; [exact Hfe |].
  split; [rewrite Hfe; now apply fetch_plan_length |].
  rewrite Hr. reflexivity.
Qed.

(** ** Loop position and training mode *)

Lemma plumbing_stamped epoch i gs ev : plumbing_event ev -> stamped epoch i gs ev.
Proof.
  destruct ev as [| | | | | | | | |[]| | | | | | | | | | | | |]; simpl; tauto.
Qed.

Lemma held_out_stamped epoch i gs ev : held_out_event ev -> stamped epoch i gs ev.
Proof.
  destruct ev as [| | | | | | | | |[]| | | | | | | | | | | | |]; simpl; tauto.
Qed.

Lemma side_effects_stamped cfg epoch i niter gs loss correct :
  emits (stamped epoch i gs) (side_effects cfg epoch i niter gs loss correct).
Proof.
  unfold side_effects, print_block, image_block, save_block, evaluation_block.
  repeat first
    [ apply due_emits
    | apply emits_when
    | apply emits_emit; simpl; tauto
    | eapply emits_impl; [apply held_out_stamped |];
      intros s; rewrite evaluation_taken_run; apply evaluation_events_held_out
    | apply emits_bind; [| intros ? ] ].
Qed.

(** X11: everything iteration [i] of epoch [epoch] writes carries that
    position.  The tensorboard scalars and the image are written at step
    [epoch * niter + i], the log line and the checkpoint name [epoch] and
    [i] (the iteration that has just run, not the next one), on every
    state and whether or not the iteration completes.  Within a run
    [niter] is fixed, and two iterations [0 <= i < niter] of any two
    epochs are written at the same step only if they are the same
    iteration of the same epoch. *)
Theorem iteration_events_carry_position cfg epoch niter i (st : State) :
  Forall (stamped epoch i (epoch * niter + i))
    (emitted (iteration_body cfg epoch niter i st)) /\
  forall epoch' i',
    0 <= i < niter -> 0 <= i' < niter ->
    epoch * niter + i = epoch' * niter + i' ->
    epoch = epoch' /\ i = i'.
Proof.
  split.
  - apply (emits_impl (fun ev => plumbing_event ev \/ stamped epoch i (epoch * niter + i) ev)).
    + intros ev [H|H]; [now apply plumbing_stamped | exact H].
    + apply iteration_body_emits. intros loss correct. apply side_effects_stamped.
  - intros e' i' Hi Hi' Heq.
    assert (epoch = e') by nia. subst e'. split; [reflexivity | lia].
Qed.

Lemma side_effects_in_training_mode cfg epoch i niter gs loss correct (s : State) :
  runnable cfg -> training s = true ->
  post (side_effects cfg epoch i niter gs loss correct s) = s.
Proof.
  intros (Hb & Hn & Hp & Hs & Hv & He & Hd) Ht.
  rewrite side_effects_run by assumption. cbn [post].
  rewrite evaluation_block_run by assumption.
  destruct (due_now i (freq_eval cfg) (negb (overfit cfg))); [| reflexivity].
  cbn [post]. rewrite (test_spec_ok cfg (weights s) Hb Hd). cbn [is_ok].
  rewrite <- Ht at 1. apply set_training_same.
Qed.

Lemma iteration_in_training_mode cfg epoch niter i (st : State) g rest :
  runnable cfg -> loader st = g :: rest -> grad_enabled st = true ->
  training st = true ->
  let r := iteration_body cfg epoch niter i st in
  result r = inr tt /\ post r = after_step st g rest.
Proof.
  intros Hrun Hl Hg Ht r. subst r.
  split; [apply (iteration_ok cfg epoch niter i st g rest Hrun Hl Hg) |].
  rewrite iteration_body_is_with.
  rewrite (iteration_body_with_run binarize _ _ _ _ _ _ _ Hl Hg).
  unfold after. cbn [post].
  now apply side_effects_in_training_mode.
Qed.

Lemma iterations_in_training_mode cfg epoch niter :
  runnable cfg ->
  forall (idx : list Z) (st : State),
  (length idx <= length (loader st))%nat -> grad_enabled st = true ->
  training st = true ->
  let r := for_each idx (iteration_body cfg epoch niter) st in
  post r = train_steps (length idx) st /\ training (post r) = true.
Proof.
  intros Hrun idx.
  induction idx as [|i idx IH]; intros st Hlen Hg Ht r; subst r.
  - cbn [for_each ret post length train_steps]. now split.
  - destruct (loader st) as [|g rest] eqn:Hl; [simpl in Hlen; lia |].
    destruct (iteration_in_training_mode cfg epoch niter i st g rest Hrun Hl Hg Ht)
      as (Hr & Hp).
    cbn [for_each]. rewrite (bind_inr _ _ _ _ Hr). cbn [post].
    rewrite Hp. cbn [length train_steps]. rewrite Hl.
    apply IH.
    + cbn [after_step loader set_net set_optimizer set_grads set_loader].
      cbn [length] in Hlen. lia.
    + exact Hg.
    + exact Ht.
Qed.

(** X12: what an epoch learns.  Under a runnable configuration an epoch
    that starts in grad mode at iteration [start_iter >= 0] leaves the
    parameters, the optimizer state and the stored gradient that
    [niter - start_iter] plain gradient steps on the first batches of the
    epoch's shuffle leave, every forward pass in training mode: the
    periodic statements of the script in between (log lines, tensorboard
    writes, checkpoint calls, held-out evaluations with their mode
    switches) change nothing of it, and the network is in training mode
    at the end even when a held-out evaluation ran in the last iteration.
    The renderer and the checkpoint writer are outside the script and
    are taken to leave the network alone. *)
Theorem epoch_is_its_gradient_steps cfg ds epoch start_iter (st : State) :
  runnable cfg -> grad_enabled st = true -> 0 <= start_iter ->
  let r := epoch_body cfg ds epoch start_iter st in
  let learnt := train_steps (Z.to_nat (niter_of cfg ds - start_iter))
                  (epoch_start cfg ds st) in
  result r = inr 0 /\
  post r = set_sched_steps (S (sched_steps st)) learnt /\
  weights (post r) = weights learnt /\
  opt_state (post r) = opt_state learnt /\
  grads (post r) = grads learnt /\
  training (post r) = true.
Proof.
  intros Hrun Hg Hs r learnt.
  pose proof Hrun as (Hb & Hn & _).
  destruct (epoch_body_run cfg ds epoch start_iter st Hrun Hg Hs)
    as (Hr & Kg & Ks & _).
  assert (Hlen : (length (range start_iter (niter_of cfg ds))
                  <= length (loader (epoch_start cfg ds st)))%nat).
  { rewrite range_length. cbn [epoch_start loader set_rng set_loader].
    unfold niter_of, epoch_loader.
    rewrite <- (Permutation_length (shuffle_perm (rng st) ds)).
    rewrite (loader_len_batches _ (shuffle (rng st) ds) Hb).
    lia. }
  destruct (iterations_in_training_mode cfg epoch (niter_of cfg ds) Hrun
              (range start_iter (niter_of cfg ds)) (epoch_start cfg ds st)
              Hlen Hg eq_refl) as (Hp & Ht).
  rewrite range_length in Hp. fold learnt in Hp.
  assert (Hpost : post r = set_sched_steps (S (sched_steps st)) learnt).
  { subst r. rewrite Hr. cbn [post]. rewrite Ks, Hp. reflexivity. }
  split; [subst r; rewrite Hr; reflexivity |].
  split; [exact Hpost |].
  rewrite Hpost. cbn [weights opt_state grads training set_sched_steps].
  rewrite <- Hp. repeat split. exact Ht.
Qed.

(** ** The mask of correct predictions *)

Lemma SFeqb_sym (x y : float) : SFeqb x y = SFeqb y x.
Proof.
  unfold SFeqb. rewrite (SFcompare_antisym y x).
  destruct (SFcompare y x) as [[]|]; reflexivity.
Qed.

Lemma SFltb_not_leb (c x : float) : SFltb x c = true -> SFleb c x = false.
Proof.
  unfold SFleb, SFltb. rewrite (SFcompare_antisym x c).
  destruct (SFcompare x c) as [[]|]; simpl; congruence.
Qed.

Lemma binarize_elem_agrees (x y : float) :
  SFeqb (binarize_elem x) y = agrees x y.
Proof.
  unfold agrees.
  destruct (binarize_elem_cases x) as [[-> ->]|[Hx _]]; [reflexivity |].
  destruct (compare_half_total x Hx) as [H|H].
  - rewrite (binarize_elem_lt x H), H, (SFltb_not_leb _ _ H).
    rewrite (SFeqb_sym zero y). cbn [andb orb]. now rewrite orb_false_r.
  - rewrite (binarize_elem_ge x H), H, (SFleb_not_ltb _ _ H).
    rewrite (SFeqb_sym one y). reflexivity.
Qed.

(** X13: which predictions count as correct.  Element [i] of
    [output.eq(target).float()] after binarization is 1. exactly when the
    raw output is below 0.5 and the target is 0, or the raw output is at
    least 0.5 and the target is 1, and 0. otherwise.  So a NaN output is
    never correct, and neither is any output against a target that is
    not 0 or 1. *)
Theorem correct_mask_is_threshold_agreement (t : Tensor) (target : list float)
    (i : nat) (x y : float) :
  data t !! i = Some x -> target !! i = Some y ->
  eq_float (data (binarize t)) target !! i =
    Some (if agrees x y then one else zero) /\
  (x = S754_nan -> eq_float (data (binarize t)) target !! i = Some zero) /\
  (SFeqb y zero = false -> SFeqb y one = false ->
     eq_float (data (binarize t)) target !! i = Some zero).
Proof.
  intros Hx Hy.
  assert (E : eq_float (data (binarize t)) target !! i =
              Some (if agrees x y then one else zero)).
  { unfold eq_float. rewrite lookup_zip_with, binarize_data.
    change (map binarize_elem (data t)) with (binarize_elem <$> data t).
    pose proof (list_lookup_fmap binarize_elem (data t) i) as F.
    unfold float in *. rewrite F, Hx, Hy.
    cbn [fmap option_fmap option_map mbind option_bind].
    now rewrite binarize_elem_agrees. }
  split; [exact E |]. split.
  - intros ->. rewrite E. reflexivity.
  - intros H0 H1. rewrite E. unfold agrees. rewrite H0, H1, !andb_false_r.
    reflexivity.
Qed.

(** ** The script as a whole *)

(** X14: [train] starts only after the import-time code has run to its
    end, and then on a frozen configuration.  If slicing the command
    line, parsing it or merging the configuration file raises, the
    script stops with that exception: the configuration has not been
    frozen, no data set, loader or network has been built and the state
    is untouched.  Otherwise the import-time events are the four of
    lines 22-36 in their order, and the rest of the run is [train] on the
    frozen configuration. *)
Theorem script_trains_on_frozen_config fs sys_argv (st : State) :
  let r0 := startup fs sys_argv tt in
  (forall e, result r0 = inl e ->
     script fs sys_argv st = MkRun st (emitted r0) (inl e) /\
     (Freeze ∉ emitted r0) /\
     (forall split, NewDataset split ∉ emitted r0) /\
     (NewNet ∉ emitted r0)) /\
  (forall cfg, result r0 = inr cfg ->
     is_frozen cfg = true /\
     (exists argv file,
        cli_argv sys_argv = inr argv /\ parse_args argv = inr file /\
        emitted r0 = [ParseArgs argv; GetCfgDefaults; MergeFromFile file; Freeze]) /\
     script fs sys_argv st = after (emitted r0) (train fs cfg st)).
Proof.
  assert (Hnot : forall (ev : event) (l : list event),
            Forall (fun x => x <> ev) l -> ev ∉ l).
  { intros ev l Hl Hin. rewrite Forall_forall in Hl. exact (Hl ev Hin eq_refl). }
  intros r0. subst r0. unfold script, startup.
  destruct (cli_argv sys_argv) as [e0|argv];
    cbn [lift bind raise ret emit post emitted result app].
  { split; [| intros cfg He; discriminate He].
    intros e He. injection He as <-.
    split; [reflexivity |].
    split; [| split; [intros split |]]; apply Hnot; constructor. }
  destruct (parse_args argv) as [e1|file] eqn:Hp;
    cbn [lift bind raise ret emit post emitted result app].
  { split; [| intros cfg He; discriminate He].
    intros e He. injection He as <-.
    split; [reflexivity |].
    split; [| split; [intros split |]]; apply Hnot;
      repeat (constructor; [discriminate |]); constructor. }
  destruct (merge_from_file cfg_defaults file fs) as [e2|cfg'];
    cbn [lift bind raise ret emit post emitted result app].
  { split; [| intros cfg He; discriminate He].
    intros e He. injection He as <-.
    split; [reflexivity |].
    split; [| split; [intros split |]]; apply Hnot;
      repeat (constructor; [discriminate |]); constructor. }
  split; [intros e He; discriminate He |].
  intros cfg He. injection He as <-.
  split; [reflexivity |].
  split; [exists argv, file; split; [reflexivity | split; [exact Hp | reflexivity]] |].
  reflexivity.
Qed.

End Properties.

(** * The script on concrete inputs *)

(** C2: a held-out set of four samples in two batches of two, each batch
    with mean-squared error 0.5 and accuracy 0.5.  The averages over the
    pass are 0.5 and 50%; [test] logs 0.25 and 25%, the two sums divided
    by the number of samples (4) where the number of batches (2) is
    due. *)
Theorem test_divides_by_sample_count :
  let gs := test_loader (fw := toy) toy_cfg in
  length gs = 2%nat /\
  map (batch_mse (fw := toy) tt) gs = [half64; half64] /\
  map (batch_accuracy (fw := toy) tt) gs = [half; half] /\
  f64_div (f64_add (f64_add zero half64) half64) (f64_of_Z 2) = half64 /\
  f32_div (f32_mul (f32_of_Z 100) (f32_add (f32_add zero half) half)) (f32_of_Z 2)
    = f32_50 /\
  result (test toy_cfg toy_state) = inr tt /\
  last (emitted (test toy_cfg toy_state)) = Some (Info (MsgTest quarter64 f32_25)).
Proof. cbv zeta. repeat (split; [reflexivity |]). reflexivity. Qed.

(** C5, as stated, fails: with three training samples and batches of
    two, an epoch from iteration 0 completes and fetches one batch; the
    third sample of the data set is in no batch of the epoch. *)
Lemma epoch_skips_a_sample :
  let r := epoch_body (fw := toy) toy_cfg (toy_dataset "train") 0 0 toy_state in
  result r = inr 0 /\
  In (one, zero) (toy_dataset "train") /\
  ~ In (one, zero) (concat (fetched r.(emitted))).
Proof.
  cbv zeta. split; [reflexivity |]. split; [vm_compute; tauto |].
  assert (H : concat (fetched (emitted (epoch_body (fw := toy) toy_cfg
                (toy_dataset "train") 0 0 toy_state)))
              = [(one, one); (zero, zero)]) by reflexivity.
  rewrite H. intros [H1|[H1|[]]]; discriminate H1.
Qed.

(** Iteration 2 with all frequencies 1: the metrics are logged. *)
Lemma side_effect_cadence_witness :
  freq_plot toy_cfg <> 0 /\ freq_show toy_cfg <> 0 /\
  freq_save toy_cfg <> 0 /\ freq_eval toy_cfg <> 0 /\
  (existsb is_scalar_log
     (emitted (side_effects (fw := toy) toy_cfg 0 2 3 2
                 {| data := [zero]; node := Leaf |} one toy_state)) = true
   <-> positive_multiple 2 (freq_plot toy_cfg)).
Proof.
  assert (H1 : freq_plot toy_cfg <> 0) by (intros H; discriminate H).
  assert (H2 : freq_show toy_cfg <> 0) by (intros H; discriminate H).
  assert (H3 : freq_save toy_cfg <> 0) by (intros H; discriminate H).
  assert (H4 : freq_eval toy_cfg <> 0) by (intros H; discriminate H).
  repeat (split; [assumption |]).
  exact (proj1 (proj1 (proj1 (side_effect_cadence (fw := toy) toy_cfg 0 3 2
                                H1 H2 H3 H4)
                         2 {| data := [zero]; node := Leaf |} one toy_state))).
Defined.

(** The element 0.5 itself. *)
Lemma binarize_threshold_witness :
  data {| data := [half]; node := Leaf |} !! 0%nat = Some half /\
  data (binarize {| data := [half]; node := Leaf |}) !! 0%nat = Some one.
Proof.
  split; [reflexivity |].
  exact (proj1 (proj2 (proj2
           (binarize_threshold {| data := [half]; node := Leaf |} 0 half eq_refl)))
         eq_refl).
Defined.

(** An iteration on the one batch of [toy_state_mid]. *)
Lemma loss_is_mse_of_raw_output_witness :
  loader toy_state_mid = [[(one, one); (zero, zero)]] /\
  grad_enabled toy_state_mid = true /\
  List.filter is_backward
    (emitted (iteration_body (fw := toy) toy_cfg 0 1 0 toy_state_mid)) =
  [Backward (train_loss toy_state_mid [(one, one); (zero, zero)])].
Proof.
  split; [reflexivity |]. split; [reflexivity |].
  exact (proj1 (loss_is_mse_of_raw_output (fw := toy) toy_cfg 0 1 0 toy_state_mid
                  [(one, one); (zero, zero)] [] eq_refl eq_refl)).
Defined.

Lemma toy_runnable : runnable (fw := toy) toy_cfg.
Proof.
  unfold runnable.
  split; [reflexivity |]. split; [intros H; discriminate H |].
  repeat (split; [intros H; discriminate H |]).
  intros H; discriminate H.
Defined.

(** Two epochs of the toy run, from iteration 0. *)
Lemma epochs_fetch_full_batches_witness :
  runnable (fw := toy) toy_cfg /\ grad_enabled toy_state = true /\ 0 <= 0 /\
  fetched (emitted (epochs (fw := toy) toy_cfg (toy_dataset "train") [0; 1] 0 toy_state)) =
  fetch_plan (fw := toy) toy_cfg (toy_dataset "train") 2 0 (rng toy_state).
Proof.
  split; [exact toy_runnable |]. split; [reflexivity |].
  split; [intros H; discriminate H |].
  exact (proj1 (epochs_fetch_full_batches (fw := toy) toy_cfg (toy_dataset "train")
                  [0; 1] 0 toy_state toy_runnable eq_refl
                  (fun H : (0 ?= 0) = Gt => ltac:(discriminate H)))).
Defined.

(** One epoch of the toy run. *)
Lemma epoch_end_steps_scheduler_witness :
  runnable (fw := toy) toy_cfg /\ grad_enabled toy_state = true /\ 0 <= 0 /\
  result (epoch_body (fw := toy) toy_cfg (toy_dataset "train") 0 0 toy_state) = inr 0 /\
  sched_steps (post (epoch_body (fw := toy) toy_cfg (toy_dataset "train") 0 0 toy_state))
    = S (sched_steps toy_state).
Proof.
  split; [exact toy_runnable |]. split; [reflexivity |].
  split; [intros H; discriminate H |].
  pose proof (epoch_end_steps_scheduler (fw := toy) toy_cfg (toy_dataset "train")
                0 0 toy_state toy_runnable eq_refl
                (fun H : (0 ?= 0) = Gt => ltac:(discriminate H))) as T.
  exact (conj (proj1 T) (proj1 (proj2 T))).
Defined.

(** The toy file system holds the configuration file and no checkpoint. *)
Lemma missing_checkpoint_is_not_fatal_witness :
  0 < batch_size toy_cfg /\ 0 <= num_threads toy_cfg /\
  toy_fs !! ckpt_path toy_cfg = None /\
  result (setup (fw := toy) toy_fs toy_cfg toy_state) = inr (toy_dataset "train").
Proof.
  split; [reflexivity |]. split; [intros H; discriminate H |].
  split; [reflexivity |].
  exact (proj1 (proj1 (missing_checkpoint_is_not_fatal (fw := toy) toy_fs toy_cfg
                         toy_state eq_refl
                         (fun H : (0 ?= num_threads toy_cfg) = Gt => ltac:(discriminate H)))
                  eq_refl)).
Defined.

Lemma toy_prefix_has_no_separator : "--" ∉ ["train_net.py"; "-cfg"; "cfg.yaml"].
Proof.
  intros H. repeat (apply elem_of_cons in H as [H|H]; [discriminate H |]).
  inversion H.
Defined.

(** The usage line of the script, with two different override lists. *)
Lemma startup_ignores_overrides_witness :
  ("--" ∉ ["train_net.py"; "-cfg"; "cfg.yaml"]) /\
  startup (fw := toy) toy_fs
    (["train_net.py"; "-cfg"; "cfg.yaml"] ++ "--" :: ["learning_rate"; "1.0"]) tt =
  startup (fw := toy) toy_fs
    (["train_net.py"; "-cfg"; "cfg.yaml"] ++ "--" :: ["batch_size"; "4"; "x"]) tt.
Proof.
  split; [exact toy_prefix_has_no_separator |].
  exact (proj2 (startup_ignores_overrides (fw := toy) toy_fs
                  ["train_net.py"; "-cfg"; "cfg.yaml"]
                  ["learning_rate"; "1.0"] ["batch_size"; "4"; "x"]
                  toy_prefix_has_no_separator)).
Defined.

(** The same command line without the separator. *)
Lemma startup_without_separator_witness :
  ("--" ∉ ["train_net.py"; "-cfg"; "cfg.yaml"]) /\
  script (fw := toy) toy_fs ["train_net.py"; "-cfg"; "cfg.yaml"] toy_state =
  MkRun toy_state [] (inl ValueError).
Proof.
  split; [exact toy_prefix_has_no_separator |].
  exact (proj2 (proj2 (startup_without_separator (fw := toy) toy_fs
                         ["train_net.py"; "-cfg"; "cfg.yaml"] toy_state
                         toy_prefix_has_no_separator))).
Defined.

(** The image frequency set to 0: the side effects of iteration 2. *)
Lemma zero_frequency_raises_witness :
  (freq_plot toy_cfg_zero_show = 0 \/ freq_show toy_cfg_zero_show = 0 \/
   freq_save toy_cfg_zero_show = 0 \/ freq_eval toy_cfg_zero_show = 0) /\
  result (side_effects (fw := toy) toy_cfg_zero_show 0 2 3 2
            {| data := [zero]; node := Leaf |} one toy_state)
    = inl ZeroDivisionError.
Proof.
  assert (H : freq_plot toy_cfg_zero_show = 0 \/ freq_show toy_cfg_zero_show = 0 \/
              freq_save toy_cfg_zero_show = 0 \/ freq_eval toy_cfg_zero_show = 0)
    by (right; left; reflexivity).
  split; [exact H |].
  exact (proj1 (proj1 (zero_frequency_raises (fw := toy) toy_cfg_zero_show 0 3 2 H)
                  2 {| data := [zero]; node := Leaf |} one toy_state)).
Defined.

(** The evaluation of iteration 1 on the instance without held-out
    samples. *)
Lemma test_on_empty_set_witness :
  0 < batch_size toy_cfg /\
  AMASSdataset (Framework := toy_no_held_out) toy_cfg "test" = [] /\
  freq_eval toy_cfg <> 0 /\ positive_multiple 1 (freq_eval toy_cfg) /\
  overfit toy_cfg = false /\
  test (fw := toy_no_held_out) toy_cfg toy_state_no_held_out =
    MkRun (set_training false toy_state_no_held_out)
          [NetEval; NewDataset "test"; NewLoader "test"] (inl ZeroDivisionError).
Proof.
  assert (H3 : freq_eval toy_cfg <> 0) by (intros H; discriminate H).
  assert (H4 : positive_multiple 1 (freq_eval toy_cfg))
    by (split; [reflexivity | exists 1; reflexivity]).
  split; [reflexivity |]. split; [reflexivity |].
  split; [exact H3 |]. split; [exact H4 |]. split; [reflexivity |].
  exact (proj1 (test_on_empty_set (fw := toy_no_held_out) toy_cfg 1
                  toy_state_no_held_out eq_refl eq_refl H3 H4 eq_refl)).
Defined.

(** The four held-out samples of the small instance, in batches of two. *)
Lemma held_out_pass_covers_all_witness :
  0 < batch_size toy_cfg /\
  concat (held_out_fetched (emitted (test (fw := toy) toy_cfg toy_state))) =
  toy_dataset "test".
Proof.
  split; [reflexivity |].
  exact (proj1 (held_out_pass_covers_all (fw := toy) toy_cfg toy_state eq_refl)).
Defined.

(** The same held-out set in batches of one. *)
Lemma test_message_is_average_for_single_samples_witness :
  batch_size toy_cfg_single = 1 /\
  AMASSdataset (Framework := toy) toy_cfg_single "test" <> [] /\
  result (test (fw := toy) toy_cfg_single toy_state) = inr tt.
Proof.
  assert (H : AMASSdataset (Framework := toy) toy_cfg_single "test" <> [])
    by (intros H; discriminate H).
  split; [reflexivity |]. split; [exact H |].
  exact (proj1 (test_message_is_average_for_single_samples (fw := toy)
                  toy_cfg_single toy_state eq_refl H)).
Defined.

(** The small run with the overfit flag set. *)
Lemma overfit_never_saves_or_evaluates_witness :
  overfit toy_cfg_overfit = true /\
  Forall (fun ev => is_save ev = false /\ is_eval ev = false)
    (emitted (train (fw := toy) toy_fs toy_cfg_overfit toy_state)).
Proof.
  split; [reflexivity |].
  exact (overfit_never_saves_or_evaluates (fw := toy) toy_fs toy_cfg_overfit
           toy_state eq_refl).
Defined.

Lemma toy_niter : niter_of (fw := toy) toy_cfg (toy_dataset "train") = 1.
Proof. reflexivity. Defined.

(** Three samples in batches of two give one iteration; an epoch
    resumed at iteration 1 has none left. *)
Lemma resumed_past_the_end_only_steps_scheduler_witness :
  0 < batch_size toy_cfg /\ 0 <= num_threads toy_cfg /\
  niter_of (fw := toy) toy_cfg (toy_dataset "train") <= 1 /\
  emitted (epoch_body (fw := toy) toy_cfg (toy_dataset "train") 0 1 toy_state) =
  [NetTrain; NewLoader "train"; SchedulerStep].
Proof.
  assert (H2 : 0 <= num_threads toy_cfg) by (intros H; discriminate H).
  assert (H3 : niter_of (fw := toy) toy_cfg (toy_dataset "train") <= 1)
    by (rewrite toy_niter; intros H; discriminate H).
  split; [reflexivity |]. split; [exact H2 |]. split; [exact H3 |].
  exact (proj1 (proj2 (resumed_past_the_end_only_steps_scheduler (fw := toy)
                         toy_cfg (toy_dataset "train") 0 1 toy_state
                         eq_refl H2 H3))).
Defined.

(** Three training samples and a batch size of four, for two epochs. *)
Lemma undersized_training_set_trains_nothing_witness :
  0 < batch_size toy_cfg_wide /\ 0 <= num_threads toy_cfg_wide /\
  Z.of_nat (length (toy_dataset "train")) < batch_size toy_cfg_wide /\ 0 <= 0 /\
  result (epochs (fw := toy) toy_cfg_wide (toy_dataset "train") [0; 1] 0 toy_state)
    = inr tt.
Proof.
  assert (H2 : 0 <= num_threads toy_cfg_wide) by (intros H; discriminate H).
  assert (H4 : 0 <= 0) by (intros H; discriminate H).
  split; [reflexivity |]. split; [exact H2 |]. split; [reflexivity |].
  split; [exact H4 |].
  exact (proj1 (proj2 (undersized_training_set_trains_nothing (fw := toy)
                         toy_cfg_wide (toy_dataset "train") [0; 1] 0 toy_state
                         eq_refl H2 eq_refl H4))).
Defined.

(** The small run from scratch: the file system holds no checkpoint. *)
Lemma train_from_scratch_witness :
  runnable (fw := toy) toy_cfg /\ grad_enabled toy_state = true /\
  toy_fs !! ckpt_path toy_cfg = None /\
  result (train (fw := toy) toy_fs toy_cfg toy_state) = inr tt.
Proof.
  split; [exact toy_runnable |]. split; [reflexivity |]. split; [reflexivity |].
  exact (proj1 (train_from_scratch (fw := toy) toy_fs toy_cfg toy_state
                  toy_runnable eq_refl eq_refl)).
Defined.

(** The first epoch of the small run. *)
Lemma epoch_is_its_gradient_steps_witness :
  runnable (fw := toy) toy_cfg /\ grad_enabled toy_state = true /\ 0 <= 0 /\
  training (post (epoch_body (fw := toy) toy_cfg (toy_dataset "train") 0 0 toy_state))
    = true.
Proof.
  assert (H3 : 0 <= 0) by (intros H; discriminate H).
  split; [exact toy_runnable |]. split; [reflexivity |]. split; [exact H3 |].
  exact (proj2 (proj2 (proj2 (proj2 (proj2
           (epoch_is_its_gradient_steps (fw := toy) toy_cfg (toy_dataset "train")
              0 0 toy_state toy_runnable eq_refl H3)))))).
Defined.

(** An output of exactly 0.5 against the target 1. *)
Lemma correct_mask_is_threshold_agreement_witness :
  data {| data := [half]; node := Leaf |} !! 0%nat = Some half /\
  [one] !! 0%nat = Some one /\
  eq_float (data (binarize {| data := [half]; node := Leaf |})) [one] !! 0%nat =
    Some (if agrees half one then one else zero).
Proof.
  split; [reflexivity |]. split; [reflexivity |].
  exact (proj1 (correct_mask_is_threshold_agreement
                  {| data := [half]; node := Leaf |} [one] 0 half one
                  eq_refl eq_refl)).
Defined.
